(** * iqfeed: the framing and dispatch core of the IQFeed client (iqfeed.go)

    A shallow embedding of [src/iqfeed.go].  The client struct [IQC] is a
    record; a Go channel is the list of the messages sent on it so far, the
    newest last; [DynFields], a [map[int]string], is a [gmap Z string]; a
    [[]byte] and a Go [string] are both a [string], whose characters are 8-bit
    bytes, so that the conversions [string(d)] and [[]byte(s)] are the
    identity.  A run-time panic is a value of the error monad [result].  The
    read loop runs against the finite list of what [ReadLine] and the [Quit]
    channel deliver.

    The client modelled is the one [Start] builds: [connect] has allocated
    [DynFields] and [Start] the seven channels; a send on a channel never
    blocks in the model. *)

From Stdlib Require Import ZArith String Ascii List Lia.
From stdpp Require Import gmap strings pretty.

Local Open Scope string_scope.
Local Open Scope list_scope.
Local Open Scope Z_scope.

(** ** Go primitives used by the file *)

Abbreviation bytes := string (only parsing).

Definition len (s : string) : Z := Z.of_nat (String.length s).

(** [d[n:]] on a slice known to hold at least [n] bytes. *)
Fixpoint slice_from (n : nat) (s : string) : string :=
  match n, s with
  | O, _ => s
  | S n', String _ r => slice_from n' r
  | S _, EmptyString => EmptyString
  end.

Definition byte_val (a : ascii) : Z := Z.of_N (N_of_ascii a).

(** [d[i]], [None] when [i] is out of range. *)
Definition byte_at (s : string) (i : nat) : option Z :=
  byte_val <$> String.get i s.

(** [strings.Split(s, sep)] for a separator of one byte: the fields between
    the separators, [n+1] of them when [sep] occurs [n] times. *)
Fixpoint Split (s : string) (sep : ascii) : list string :=
  match s with
  | EmptyString => [EmptyString]
  | String a r =>
      if Ascii.eqb a sep then EmptyString :: Split r sep
      else match Split r sep with
           | f :: fs => String a f :: fs
           | [] => [String a EmptyString]
           end
  end.

Definition comma : ascii := ","%char.

(** Two's complement wrap-around of an [int64]. *)
Definition int64_min : Z := - 2 ^ 63.
Definition int64_max : Z := 2 ^ 63 - 1.
Definition wrap64 (z : Z) : Z := (z + 2 ^ 63) mod 2 ^ 64 - 2 ^ 63.

(** [fmt.Sprintf("%d", n)]. *)
Definition Sprintf_d (n : Z) : string := pretty n.

(** [time.Month] is an [int]; [Month.String] names the months 1 to 12 and
    prints anything else as [%!Month(n)], with [n] the value as a [uint64]. *)
Definition Month := Z.

Definition longMonthNames : list string :=
  ["January"; "February"; "March"; "April"; "May"; "June"; "July";
   "August"; "September"; "October"; "November"; "December"].

Definition Month_String (m : Month) : string :=
  if (1 <=? m) && (m <=? 12)
  then default EmptyString (longMonthNames !! Z.to_nat (m - 1))
  else "%!Month(" +:+ pretty (m mod 2 ^ 64) +:+ ")".

(** ** Panics *)

Inductive panic : Type :=
  | IndexOutOfRange (index length : Z).

Inductive result (A : Type) : Type :=
  | Ok (a : A)
  | Panic (p : panic).
Arguments Ok {A} a.
Arguments Panic {A} p.

Definition bind {A B : Type} (r : result A) (k : A -> result B) : result B :=
  match r with
  | Ok a => k a
  | Panic p => Panic p
  end.

Notation "'let?' x ':=' r 'in' k" := (bind r (fun x => k))
  (at level 10, x name, r at level 100, k at level 200).

(** [l[i]] with Go's bounds check. *)
Definition index {A : Type} (l : list A) (i : nat) : result A :=
  match l !! i with
  | Some x => Ok x
  | None => Panic (IndexOutOfRange (Z.of_nat i) (Z.of_nat (length l)))
  end.

(** ** The message types and their parsers

    The seven message structs and their [UnMarshall] methods live in other
    files of the package.  Each [UnMarshall] fills a fresh zero value from its
    arguments, so it appears here as a function from the arguments to the
    message. *)

Class Parsers : Type := {
  SystemMessage : Type;
  NewsMsg : Type;
  ErrorMsg : Type;
  FundamentalMsg : Type;
  RegionalMsg : Type;
  TimeMsg : Type;
  UpdSummaryMsg : Type;
  Location : Type;
  SystemMessage_UnMarshall : bytes -> Location -> SystemMessage;
  NewsMsg_UnMarshall : bytes -> Location -> NewsMsg;
  ErrorMsg_UnMarshall : bool -> bytes -> Z -> ErrorMsg;
  FundamentalMsg_UnMarshall : bytes -> Location -> FundamentalMsg;
  RegionalMsg_UnMarshall : bytes -> Location -> RegionalMsg;
  TimeMsg_UnMarshall : bytes -> Location -> TimeMsg;
  UpdSummaryMsg_UnMarshall :
    list string -> gmap Z string -> Location -> UpdSummaryMsg
}.

Section Client.
Context `{P : Parsers}.

(** ** The client

    [Conn] and [Quit] are not fields of the record: what they deliver and
    what is done to them is the input and the event trace of [read]. *)

Record IQC : Type := mkIQC {
  System : list SystemMessage;
  News : list NewsMsg;
  Errors : list ErrorMsg;
  Fundamental : list FundamentalMsg;
  Regional : list RegionalMsg;
  Time : list TimeMsg;
  Updates : list UpdSummaryMsg;
  TimeZone : string;
  TimeLoc : Location;
  CreateBackup : bool;
  BackupFile : string;
  DynFields : gmap Z string;
  requestId : string;
  previousRequestId : Z
}.

(** [c.System <- s] and its siblings. *)
Definition send_System (c : IQC) (s : SystemMessage) : IQC :=
  mkIQC (System c ++ [s]) (News c) (Errors c) (Fundamental c) (Regional c)
    (Time c) (Updates c) (TimeZone c) (TimeLoc c) (CreateBackup c)
    (BackupFile c) (DynFields c) (requestId c) (previousRequestId c).

Definition send_News (c : IQC) (n : NewsMsg) : IQC :=
  mkIQC (System c) (News c ++ [n]) (Errors c) (Fundamental c) (Regional c)
    (Time c) (Updates c) (TimeZone c) (TimeLoc c) (CreateBackup c)
    (BackupFile c) (DynFields c) (requestId c) (previousRequestId c).

Definition send_Errors (c : IQC) (e : ErrorMsg) : IQC :=
  mkIQC (System c) (News c) (Errors c ++ [e]) (Fundamental c) (Regional c)
    (Time c) (Updates c) (TimeZone c) (TimeLoc c) (CreateBackup c)
    (BackupFile c) (DynFields c) (requestId c) (previousRequestId c).

Definition send_Fundamental (c : IQC) (f : FundamentalMsg) : IQC :=
  mkIQC (System c) (News c) (Errors c) (Fundamental c ++ [f]) (Regional c)
    (Time c) (Updates c) (TimeZone c) (TimeLoc c) (CreateBackup c)
    (BackupFile c) (DynFields c) (requestId c) (previousRequestId c).

Definition send_Regional (c : IQC) (r : RegionalMsg) : IQC :=
  mkIQC (System c) (News c) (Errors c) (Fundamental c) (Regional c ++ [r])
    (Time c) (Updates c) (TimeZone c) (TimeLoc c) (CreateBackup c)
    (BackupFile c) (DynFields c) (requestId c) (previousRequestId c).

Definition send_Time (c : IQC) (t : TimeMsg) : IQC :=
  mkIQC (System c) (News c) (Errors c) (Fundamental c) (Regional c)
    (Time c ++ [t]) (Updates c) (TimeZone c) (TimeLoc c) (CreateBackup c)
    (BackupFile c) (DynFields c) (requestId c) (previousRequestId c).

Definition send_Updates (c : IQC) (u : UpdSummaryMsg) : IQC :=
  mkIQC (System c) (News c) (Errors c) (Fundamental c) (Regional c)
    (Time c) (Updates c ++ [u]) (TimeZone c) (TimeLoc c) (CreateBackup c)
    (BackupFile c) (DynFields c) (requestId c) (previousRequestId c).

Definition set_DynFields (c : IQC) (m : gmap Z string) : IQC :=
  mkIQC (System c) (News c) (Errors c) (Fundamental c) (Regional c)
    (Time c) (Updates c) (TimeZone c) (TimeLoc c) (CreateBackup c)
    (BackupFile c) m (requestId c) (previousRequestId c).

(** [incr]: [atomic.AddInt64] adds with wrap-around and returns the new
    value. *)
Definition incr (c : IQC) : string * IQC :=
  let n := wrap64 (previousRequestId c + 1) in
  let s := Sprintf_d n in
  (s, mkIQC (System c) (News c) (Errors c) (Fundamental c) (Regional c)
        (Time c) (Updates c) (TimeZone c) (TimeLoc c) (CreateBackup c)
        (BackupFile c) (DynFields c) s n).

(** The loop [for i := 1; i < len(pfx); i++ { c.DynFields[i-1] = pfx[i] }],
    entered at index [i] with [rest] the fields [pfx[i:]]. *)
Fixpoint storeFieldNames (i : Z) (rest : list string) (m : gmap Z string)
  : gmap Z string :=
  match rest with
  | [] => m
  | name :: rest' => storeFieldNames (i + 1) rest' (<[i - 1 := name]> m)
  end.

Definition processSysMsg (c : IQC) (d : bytes) : result IQC :=
  let pfx := Split d comma in
  let? tok := index pfx 0 in
  if String.eqb tok "UPDATE FIELDNAMES" then
    Ok (set_DynFields c (storeFieldNames 1 (drop 1 pfx) (DynFields c)))
  else if String.eqb tok "CURRENT UPDATE FIELDNAMES" then
    Ok (set_DynFields c (storeFieldNames 1 (drop 1 pfx) (DynFields c)))
  else
    Ok (send_System c (SystemMessage_UnMarshall d (TimeLoc c))).

Definition processSummaryMsg (c : IQC) (d : bytes) : result IQC :=
  let items := Split d comma in
  Ok (send_Updates c (UpdSummaryMsg_UnMarshall items (DynFields c) (TimeLoc c))).

Definition process404Msg (c : IQC) (d : bytes) : result IQC :=
  Ok (send_Errors c (ErrorMsg_UnMarshall true d 404)).

Definition processErrorMsg (c : IQC) (d : bytes) : result IQC :=
  Ok (send_Errors c (ErrorMsg_UnMarshall false d 500)).

Definition processUpdMsg (c : IQC) (d : bytes) : result IQC :=
  let items := Split d comma in
  let? third := index items 2 in
  if String.eqb third "Not Found" then
    let? sym := index items 0 in
    process404Msg c sym
  else
    Ok (send_Updates c (UpdSummaryMsg_UnMarshall items (DynFields c) (TimeLoc c))).

Definition processTimeMsg (c : IQC) (d : bytes) : result IQC :=
  Ok (send_Time c (TimeMsg_UnMarshall d (TimeLoc c))).

Definition processRegUpdMsg (c : IQC) (d : bytes) : result IQC :=
  Ok (send_Regional c (RegionalMsg_UnMarshall d (TimeLoc c))).

Definition processFndMsg (c : IQC) (d : bytes) : result IQC :=
  Ok (send_Fundamental c (FundamentalMsg_UnMarshall d (TimeLoc c))).

Definition processNewsMsg (c : IQC) (d : bytes) : result IQC :=
  Ok (send_News c (NewsMsg_UnMarshall d (TimeLoc c))).

(** [processReceiver]; a nil slice is [None]. *)
Definition processReceiver (c : IQC) (d : option bytes) : result IQC :=
  match d with
  | None => Ok c
  | Some d =>
      if len d <? 3 then Ok c
      else
        let data := slice_from 2 d in
        match byte_at d 0 with
        | None => Panic (IndexOutOfRange 0 (len d))
        | Some 0x53 => processSysMsg c data
        | Some 0x50 => processSummaryMsg c data
        | Some 0x51 => processUpdMsg c data
        | Some 0x54 => processTimeMsg c data
        | Some 0x52 => processRegUpdMsg c data
        | Some 0x46 => processFndMsg c data
        | Some 0x4e => processNewsMsg c data
        | Some 0x6E => process404Msg c data
        | Some 0x45 => processErrorMsg c data
        | Some _ => Ok c
        end
  end.

(** ** The read loop

    [read] owns the connection and polls the [Quit] channel.  What the
    connection delivers is the list of the results of the successive calls of
    [ReadLine]; what [Quit] delivers is, for each turn of the outer loop,
    whether a value is ready on it.  Logging, closing the connection and
    [writeBackup] (defined in another file) are recorded as events. *)

Inductive error : Type :=
  | EOF
  | OtherError (msg : string).

Record ReadLineResult : Type := mkReadLine {
  rl_line : option bytes;
  rl_isPrefix : bool;
  rl_err : option error
}.

Inductive event : Type :=
  | Log (msg : string)
  | ConnClose
  | WriteBackup (b : bytes).

Inductive status : Type :=
  | Returned
  | Panicked (p : panic)
  | Blocked.

(** [err == nil] and [err != io.EOF]. *)
Definition err_is_nil (e : option error) : bool :=
  match e with None => true | Some _ => false end.

Definition err_is_EOF (e : option error) : bool :=
  match e with Some EOF => true | _ => false end.

Definition CRLF : string :=
  String (ascii_of_nat 13) (String (ascii_of_nat 10) EmptyString).

(** [string(line)]: a nil slice converts to the empty string. *)
Definition string_of_slice (d : option bytes) : string :=
  default EmptyString d.

Inductive lines_result : Type :=
  | LinesExit (c : IQC) (tr : list event) (last : ReadLineResult)
      (rest : list ReadLineResult)
  | LinesBlocked (c : IQC) (tr : list event)
  | LinesPanic (p : panic) (c : IQC) (tr : list event).

(** The inner loop [for err == nil && !isPrefix { ... }], entered with the
    result [r] of the [ReadLine] just made; [rs] are the results to come. *)
Fixpoint readLines (c : IQC) (tr : list event) (r : ReadLineResult)
    (rs : list ReadLineResult) : lines_result :=
  if err_is_nil (rl_err r) && negb (rl_isPrefix r) then
    let tr1 :=
      if CreateBackup c
      then tr ++ [WriteBackup (string_of_slice (rl_line r) +:+ CRLF)]
      else tr in
    match processReceiver c (rl_line r) with
    | Panic p => LinesPanic p c tr1
    | Ok c1 =>
        match rs with
        | [] => LinesBlocked c1 tr1
        | r' :: rs' => readLines c1 tr1 r' rs'
        end
    end
  else LinesExit c tr r rs.

(** The outer loop, one element of [quits] per turn.  [break] in the [Quit]
    case leaves the [select], not the [for]: the loop goes on.  [Blocked]
    is the reader waiting in [ReadLine] (or at the end of [quits]) when the
    input stops. *)
Fixpoint read (quits : list bool) (c : IQC) (tr : list event)
    (rs : list ReadLineResult) : status * IQC * list event :=
  match quits with
  | [] => (Blocked, c, tr)
  | true :: quits' =>
      read quits' c (tr ++ [Log "Client quitting"; ConnClose]) rs
  | false :: quits' =>
      match rs with
      | [] => (Blocked, c, tr)
      | r :: rs' =>
          match readLines c tr r rs' with
          | LinesPanic p c1 tr1 => (Panicked p, c1, tr1)
          | LinesBlocked c1 tr1 => (Blocked, c1, tr1)
          | LinesExit c1 tr1 last rest =>
              let tr2 :=
                if rl_isPrefix last
                then tr1 ++ [Log "buffer size to small"]
                else tr1 in
              if negb (err_is_EOF (rl_err last)) then
                (Returned, c1, tr2 ++ [Log "Pipe closed exiting..."; ConnClose])
              else read quits' c1 tr2 rest
          end
      end
  end.

(** ** Option month codes

    [time.Time] is the standard library's; all that is used of it is
    [t.Month()]. *)

Context {time_Time : Type} (Time_Month : time_Time -> Month).

(** A [switch] on a string whose cases all return: the value of the first
    case whose label equals [s], if any. *)
Fixpoint switch_string (s : string) (cases : list (string * string))
  : option string :=
  match cases with
  | [] => None
  | (label, v) :: cases' =>
      if String.eqb s label then Some v else switch_string s cases'
  end.

Definition callCases : list (string * string) :=
  [("January", "A"); ("February", "B"); ("March", "C"); ("April", "D");
   ("May", "E"); ("June", "F"); ("July", "G"); ("August", "H");
   ("September", "I"); ("October", "J"); ("November", "K");
   ("December", "L")].

Definition putCases : list (string * string) :=
  [("January", "M"); ("February", "N"); ("March", "O"); ("April", "P");
   ("May", "Q"); ("June", "R"); ("July", "S"); ("August", "T");
   ("September", "U"); ("October", "V"); ("November", "W");
   ("December", "X")].

(** The [return "A"] after the switch is the [default] below. *)
Definition getCallChar (c : IQC) (t : time_Time) : string :=
  default "A" (switch_string (Month_String (Time_Month t)) callCases).

Definition getPutChar (c : IQC) (t : time_Time) : string :=
  default "M" (switch_string (Month_String (Time_Month t)) putCases).

End Client.

(** ** A parser set for running the dispatcher

    Each message is the tuple of the arguments its [UnMarshall] received. *)

Definition recordingParsers : Parsers := {|
  SystemMessage := bytes;
  NewsMsg := bytes;
  ErrorMsg := bool * bytes * Z;
  FundamentalMsg := bytes;
  RegionalMsg := bytes;
  TimeMsg := bytes;
  UpdSummaryMsg := list string * gmap Z string;
  Location := string;
  SystemMessage_UnMarshall := fun d _ => d;
  NewsMsg_UnMarshall := fun d _ => d;
  ErrorMsg_UnMarshall := fun nf d code => (nf, d, code);
  FundamentalMsg_UnMarshall := fun d _ => d;
  RegionalMsg_UnMarshall := fun d _ => d;
  TimeMsg_UnMarshall := fun d _ => d;
  UpdSummaryMsg_UnMarshall := fun items fields _ => (items, fields)
|}.

(** The client [Start] returns: empty channels, an empty field directory. *)
Definition started : @IQC recordingParsers :=
  @mkIQC recordingParsers [] [] [] [] [] [] [] "America/New_York"
    "America/New_York" false EmptyString ∅ EmptyString 0.

(** A client whose directory still holds three names of an earlier
    definition. *)
Definition stale : @IQC recordingParsers :=
  set_DynFields started (<[0 := "Symbol"]> (<[1 := "Last"]> (<[2 := "Bid"]> ∅))).

(** A client that has handed out the largest [int64] as request id. *)
Definition exhausted : @IQC recordingParsers :=
  @mkIQC recordingParsers [] [] [] [] [] [] [] "America/New_York"
    "America/New_York" false EmptyString ∅ (Sprintf_d int64_max) int64_max.

(** The two field-definition control tokens. *)
Definition fieldnames_token (tok : string) : Prop :=
  tok = "UPDATE FIELDNAMES" \/ tok = "CURRENT UPDATE FIELDNAMES".

(** The specification's reading of a directory after [replace(names)]:
    index [i] resolves to name [i] of the list and nothing else resolves. *)
Definition directory_is (names : list string) (m : gmap Z string) : Prop :=
  forall i : Z,
    m !! i = if decide (0 <= i) then names !! Z.to_nat i else None.

(** The nine type markers of [processReceiver]. *)
Definition markers : list ascii :=
  ["S"; "P"; "Q"; "T"; "R"; "F"; "N"; "n"; "E"]%char.

(** The length of a slice, 0 for nil. *)
Definition slice_len (d : option bytes) : Z :=
  match d with
  | None => 0
  | Some s => len s
  end.

(** The one-letter string of the byte [n]. *)
Definition letter (n : Z) : string :=
  String (ascii_of_N (Z.to_N n)) EmptyString.

(** [k] successive calls of [incr]. *)
Definition incr_times `{P : Parsers} (k : nat) (c : IQC) : IQC :=
  Nat.iter k (fun c => snd (incr c)) c.

(** ** Further primitives and the rest of the client *)

(** [strings.Join(l, sep)] for a separator of one byte. *)
Fixpoint Join (l : list string) (sep : ascii) : string :=
  match l with
  | [] => EmptyString
  | x :: rest =>
      match rest with
      | [] => x
      | _ :: _ => x +:+ String sep (Join rest sep)
      end
  end.

(** [strings.IndexByte(s, a) >= 0]. *)
Fixpoint has_byte (s : string) (a : ascii) : bool :=
  match s with
  | EmptyString => false
  | String b r => Ascii.eqb b a || has_byte r a
  end.

(** The results on which the inner loop of [read] ends: an error or a
    truncated line. *)
Definition stops (r : ReadLineResult) : Prop :=
  err_is_nil (rl_err r) && negb (rl_isPrefix r) = false.

(** A record with marker Q and fewer than three comma fields. *)
Definition short_update (d : option bytes) : Prop :=
  exists s,
    d = Some s /\ 3 <= len s /\ String.get 0 s = Some "Q"%char /\
    (length (Split (slice_from 2 s) comma) < 3)%nat.

(** A complete line as [ReadLine] returns it. *)
Definition complete (line : option bytes) : ReadLineResult :=
  mkReadLine line false None.

(** A failed [ReadLine]: no line, the error [e]. *)
Definition failed (e : error) : ReadLineResult :=
  mkReadLine None false (Some e).

Section More.
Context `{P : Parsers}.

(** Records handed to [processReceiver] one after the other, as the inner
    loop of [read] does; the first panic ends the run. *)
Fixpoint dispatch_all (c : IQC) (lines : list (option bytes)) : result IQC :=
  match lines with
  | [] => Ok c
  | l :: ls => let? c1 := processReceiver c l in dispatch_all c1 ls
  end.

(** What [read] hands to [writeBackup] for these lines. *)
Definition backups (c : IQC) (lines : list (option bytes)) : list event :=
  if CreateBackup c
  then map (fun l => WriteBackup (string_of_slice l +:+ CRLF)) lines
  else [].

(** [c'] has the configuration and the request counter of [c]. *)
Definition config_kept (c c' : IQC) : Prop :=
  TimeZone c' = TimeZone c /\ TimeLoc c' = TimeLoc c /\
  CreateBackup c' = CreateBackup c /\ BackupFile c' = BackupFile c /\
  requestId c' = requestId c /\
  previousRequestId c' = previousRequestId c.

(** The seven channels of [c'] hold what those of [c] held, followed by
    the listed messages and nothing else. *)
Definition sent_exactly (c c' : IQC) (sys : list SystemMessage)
    (news : list NewsMsg) (errs : list ErrorMsg) (fund : list FundamentalMsg)
    (reg : list RegionalMsg) (time : list TimeMsg)
    (upd : list UpdSummaryMsg) : Prop :=
  System c' = System c ++ sys /\ News c' = News c ++ news /\
  Errors c' = Errors c ++ errs /\
  Fundamental c' = Fundamental c ++ fund /\
  Regional c' = Regional c ++ reg /\ Time c' = Time c ++ time /\
  Updates c' = Updates c ++ upd.

(** [sent_exactly], with the field directory, the configuration and the
    request counter unchanged. *)
Definition only_sent (c c' : IQC) (sys : list SystemMessage)
    (news : list NewsMsg) (errs : list ErrorMsg) (fund : list FundamentalMsg)
    (reg : list RegionalMsg) (time : list TimeMsg)
    (upd : list UpdSummaryMsg) : Prop :=
  sent_exactly c c' sys news errs fund reg time upd /\
  DynFields c' = DynFields c /\ config_kept c c'.

(** The number of messages waiting on the seven channels. *)
Definition queued (c : IQC) : nat :=
  (length (System c) + length (News c) + length (Errors c)
   + length (Fundamental c) + length (Regional c) + length (Time c)
   + length (Updates c))%nat.

(** What one call of [processReceiver] can make of a client: nothing, one
    send on one channel, or new names in the directory. *)
Inductive dispatched (c : IQC) : IQC -> Prop :=
  | dispatched_none : dispatched c c
  | dispatched_System s : dispatched c (send_System c s)
  | dispatched_News n : dispatched c (send_News c n)
  | dispatched_Errors e : dispatched c (send_Errors c e)
  | dispatched_Fundamental f : dispatched c (send_Fundamental c f)
  | dispatched_Regional r : dispatched c (send_Regional c r)
  | dispatched_Time t : dispatched c (send_Time c t)
  | dispatched_Updates u : dispatched c (send_Updates c u)
  | dispatched_fields names :
      dispatched c (set_DynFields c (storeFieldNames 1 names (DynFields c))).

(** ** [connect]

    [time.LoadLocation] and [net.Dial] are the environment: the first gives a
    location or fails, the second succeeds or fails.  A failed
    [LoadLocation] panics, a failed [Dial] ends the process in [log.Fatal];
    a successful [connect] leaves the client and the address it dialled. *)

Record Network : Type := mkNetwork {
  LoadLocation : string -> option Location;
  Dial : string -> bool
}.

Inductive connect_result : Type :=
  | Connected (c : IQC) (addr : string)
  | LoadLocationPanic (zone : string)
  | DialFatal (addr : string).

Definition connect (net : Network) (c : IQC) (cs : string) : connect_result :=
  let zone :=
    if String.eqb (TimeZone c) EmptyString then "America/New_York"
    else TimeZone c in
  match LoadLocation net zone with
  | None => LoadLocationPanic zone
  | Some loc =>
      let cs := if String.eqb cs EmptyString then "localhost:5009" else cs in
      if Dial net cs then
        Connected
          (mkIQC (System c) (News c) (Errors c) (Fundamental c) (Regional c)
             (Time c) (Updates c) zone loc (CreateBackup c) (BackupFile c)
             ∅ (requestId c) (previousRequestId c))
          cs
      else DialFatal cs
  end.

End More.

(** A network in which every zone loads and every dial succeeds. *)
Definition friendly : @Network recordingParsers :=
  @mkNetwork recordingParsers (fun zone => Some zone) (fun _ => true).

(** * Properties *)

(** ** [strings.Split] *)

Lemma Split_cons (s : string) (sep : ascii) :
  exists f fs, Split s sep = f :: fs.
Proof.
  induction s as [|a r IH]; simpl.
  - eauto.
  - destruct (Ascii.eqb a sep); [eauto|].
    destruct IH as (f & fs & ->). eauto.
Qed.

Lemma Split_length (s : string) (sep : ascii) :
  (length (Split s sep) <= S (String.length s))%nat.
Proof.
  induction s as [|a r IH]; simpl; [lia|].
  destruct (Ascii.eqb a sep); simpl; [lia|].
  destruct (Split r sep); simpl in *; lia.
Qed.

(** ** Records of at least three bytes *)

Lemma record_shape (d : bytes) :
  3 <= len d ->
  exists a b x data, d = String a (String b (String x data)).
Proof.
  unfold len. destruct d as [|a [|b [|x data]]]; simpl; try lia. eauto.
Qed.

Section Dispatch.
Context `{P : Parsers}.
Implicit Types (c : IQC) (d : bytes).

Lemma processReceiver_marker c (a b x : ascii) (data : string) :
  processReceiver c (Some (String a (String b (String x data)))) =
  match byte_val a with
  | 0x53 => processSysMsg c (String x data)
  | 0x50 => processSummaryMsg c (String x data)
  | 0x51 => processUpdMsg c (String x data)
  | 0x54 => processTimeMsg c (String x data)
  | 0x52 => processRegUpdMsg c (String x data)
  | 0x46 => processFndMsg c (String x data)
  | 0x4e => processNewsMsg c (String x data)
  | 0x6E => process404Msg c (String x data)
  | 0x45 => processErrorMsg c (String x data)
  | _ => Ok c
  end.
Proof.
  unfold processReceiver.
  assert ((len (String a (String b (String x data))) <? 3) = false) as ->.
  { apply Z.ltb_ge. unfold len. simpl String.length. lia. }
  reflexivity.
Qed.

(** ** What a send changes *)

Ltac by_projections :=
  unfold only_sent, sent_exactly, config_kept; cbn;
  rewrite ?app_nil_r; repeat split.

Lemma only_sent_System c s : only_sent c (send_System c s) [s] [] [] [] [] [] [].
Proof. by_projections. Qed.

Lemma only_sent_News c n : only_sent c (send_News c n) [] [n] [] [] [] [] [].
Proof. by_projections. Qed.

Lemma only_sent_Errors c e : only_sent c (send_Errors c e) [] [] [e] [] [] [] [].
Proof. by_projections. Qed.

Lemma only_sent_Fundamental c f :
  only_sent c (send_Fundamental c f) [] [] [] [f] [] [] [].
Proof. by_projections. Qed.

Lemma only_sent_Regional c r :
  only_sent c (send_Regional c r) [] [] [] [] [r] [] [].
Proof. by_projections. Qed.

Lemma only_sent_Time c t : only_sent c (send_Time c t) [] [] [] [] [] [t] [].
Proof. by_projections. Qed.

Lemma only_sent_Updates c u :
  only_sent c (send_Updates c u) [] [] [] [] [] [] [u].
Proof. by_projections. Qed.

Lemma sent_nothing_set_DynFields c (m : gmap Z string) :
  sent_exactly c (set_DynFields c m) [] [] [] [] [] [] [] /\
  DynFields (set_DynFields c m) = m /\
  config_kept c (set_DynFields c m).
Proof. by_projections. Qed.

(** ** The field directory *)

Lemma storeFieldNames_lookup (rest : list string) :
  forall (i : Z) (m : gmap Z string) (j : Z),
    storeFieldNames i rest m !! j =
    if decide (i - 1 <= j < i - 1 + Z.of_nat (length rest))
    then rest !! Z.to_nat (j - (i - 1))
    else m !! j.
Proof.
  induction rest as [|name rest IH]; intros i m j; simpl storeFieldNames.
  - simpl length. case_decide; [lia|done].
  - rewrite IH. simpl length.
    destruct (decide (j = i - 1)) as [->|Hne].
    + rewrite Z.sub_diag. simpl. rewrite lookup_insert_eq.
      repeat case_decide; try lia; done.
    + rewrite lookup_insert_ne by lia.
      repeat case_decide; try lia; try done.
      assert (Z.to_nat (j - (i - 1)) = S (Z.to_nat (j - (i + 1 - 1)))) as ->
        by lia.
      done.
Qed.

Lemma processSysMsg_fieldnames c d (tok : string) (names : list string) :
  Split d comma = tok :: names ->
  fieldnames_token tok ->
  processSysMsg c d =
  Ok (set_DynFields c (storeFieldNames 1 names (DynFields c))).
Proof.
  intros HS Htok. unfold processSysMsg. rewrite HS. simpl.
  destruct Htok as [-> | ->]; reflexivity.
Qed.

(** C1 (as amended): a field-definition control record with N names makes
    [DynFields] map index i to name i for every i in [0, N) and sends
    nothing; every other index keeps the entry it had before, so the names
    are merged into the previous directory.  The result is exactly the new
    definition if and only if no index outside [0, N) resolved before. *)
Theorem fieldnames_merged c d (tok : string) (names : list string) :
  Split d comma = tok :: names ->
  fieldnames_token tok ->
  exists c',
    processSysMsg c d = Ok c' /\
    c' = set_DynFields c (DynFields c') /\
    (forall i : Z, 0 <= i < Z.of_nat (length names) ->
       DynFields c' !! i = names !! Z.to_nat i) /\
    (forall i : Z, ~ 0 <= i < Z.of_nat (length names) ->
       DynFields c' !! i = DynFields c !! i) /\
    (directory_is names (DynFields c') <->
     forall i : Z, ~ 0 <= i < Z.of_nat (length names) ->
                   DynFields c !! i = None).
Proof.
  intros HS Htok.
  exists (set_DynFields c (storeFieldNames 1 names (DynFields c))).
  split; [by eapply processSysMsg_fieldnames|].
  split; [reflexivity|]. simpl.
  split; [|split].
  - intros i Hi. rewrite storeFieldNames_lookup.
    case_decide; [|lia]. f_equal. lia.
  - intros i Hi. rewrite storeFieldNames_lookup.
    case_decide; [lia|done].
  - split.
    + intros Hdir i Hi. specialize (Hdir i).
      rewrite storeFieldNames_lookup in Hdir.
      repeat case_decide; try lia.
      * rewrite Hdir. apply lookup_ge_None. lia.
      * exact Hdir.
    + intros Hnone i. rewrite storeFieldNames_lookup.
      repeat case_decide; try lia.
      * f_equal. lia.
      * rewrite Hnone by lia. symmetry. apply lookup_ge_None. lia.
      * apply Hnone. lia.
Qed.

(** ** Dispatch *)

(** C6: a nil record and a record of fewer than three bytes are dropped:
    the client is returned as it was, channels and field directory
    included. *)
Theorem short_record_dropped c (d : option bytes) :
  d = None \/ slice_len d < 3 ->
  processReceiver c d = Ok c.
Proof.
  intros [-> | Hlen]; [reflexivity|].
  destruct d as [s|]; [|reflexivity].
  unfold processReceiver. simpl in Hlen.
  apply Z.ltb_lt in Hlen. by rewrite Hlen.
Qed.

(** C7: a record with marker [n] adds one [ErrorMsg], unmarshalled with
    flag true and code 404 from the payload, at the end of [Errors]; a record
    with marker [E] adds one unmarshalled with flag false and code 500; the
    other six channels, the field directory, the configuration and the
    request counter stay as they were. *)
Theorem error_markers c d :
  3 <= len d ->
  (String.get 0 d = Some "n"%char ->
   exists c',
     processReceiver c (Some d) = Ok c' /\
     Errors c' = Errors c ++ [ErrorMsg_UnMarshall true (slice_from 2 d) 404] /\
     System c' = System c /\ News c' = News c /\
     Fundamental c' = Fundamental c /\ Regional c' = Regional c /\
     Time c' = Time c /\ Updates c' = Updates c /\
     DynFields c' = DynFields c /\ config_kept c c') /\
  (String.get 0 d = Some "E"%char ->
   exists c',
     processReceiver c (Some d) = Ok c' /\
     Errors c' = Errors c ++ [ErrorMsg_UnMarshall false (slice_from 2 d) 500] /\
     System c' = System c /\ News c' = News c /\
     Fundamental c' = Fundamental c /\ Regional c' = Regional c /\
     Time c' = Time c /\ Updates c' = Updates c /\
     DynFields c' = DynFields c /\ config_kept c c').
Proof.
  intros Hlen. destruct (record_shape d Hlen) as (a & b & x & data & ->).
  rewrite processReceiver_marker. simpl.
  split; intros [= ->]; (eexists; split; [reflexivity|]);
    unfold config_kept; cbn; repeat split.
Qed.

Lemma Split_third_long (data : string) (third : string) :
  Split data comma !! 2%nat = Some third ->
  exists x y rest, data = String x (String y rest).
Proof.
  intros H. destruct data as [|x [|y rest]]; [done| |eauto].
  simpl in H. destruct (Ascii.eqb x comma); done.
Qed.

(** C4: a record with marker [Q] whose comma field 2 is [Not Found] sends
    one [ErrorMsg], unmarshalled with flag true and code 404 from comma
    field 0, on [Errors], and leaves [Updates] as it was. *)
Theorem update_not_found c d :
  String.get 0 d = Some "Q"%char ->
  Split (slice_from 2 d) comma !! 2%nat = Some "Not Found" ->
  exists (sym : string) (c' : IQC),
    Split (slice_from 2 d) comma !! 0%nat = Some sym /\
    processReceiver c (Some d) = Ok c' /\
    c' = send_Errors c (ErrorMsg_UnMarshall true sym 404) /\
    Errors c' = Errors c ++ [ErrorMsg_UnMarshall true sym 404] /\
    Updates c' = Updates c.
Proof.
  intros Hm H3.
  destruct (Split_third_long _ _ H3) as (x & y & rest & Hdata).
  destruct d as [|a [|b data]]; try done.
  simpl in Hm. injection Hm as ->. simpl in Hdata, H3. subst data.
  rewrite processReceiver_marker. simpl slice_from.
  change (byte_val "Q") with 0x51. cbv iota.
  destruct (Split_cons (String x (String y rest)) comma) as (sym & fs & HS).
  unfold processUpdMsg, process404Msg, index. rewrite H3. cbn [bind].
  rewrite HS. cbn.
  exists sym, (send_Errors c (ErrorMsg_UnMarshall true sym 404)).
  repeat split; reflexivity.
Qed.

(** C3 (the code fails the claim): a record with marker [Q] whose payload
    has fewer than three comma fields makes [processReceiver] panic at
    [items[2]], and the panic ends the read loop. *)
Theorem short_update_panics c d (quits : list bool) (tr : list event)
    (rs : list ReadLineResult) :
  3 <= len d ->
  String.get 0 d = Some "Q"%char ->
  (length (Split (slice_from 2 d) comma) < 3)%nat ->
  let p := IndexOutOfRange 2
             (Z.of_nat (length (Split (slice_from 2 d) comma))) in
  processReceiver c (Some d) = Panic p /\
  fst (fst (read (false :: quits) c tr (mkReadLine (Some d) false None :: rs)))
  = Panicked p.
Proof.
  intros Hlen Hm Hshort p.
  assert (processReceiver c (Some d) = Panic p) as Hpanic.
  { destruct (record_shape d Hlen) as (a & b & x & data & ->).
    simpl in Hm. injection Hm as ->.
    rewrite processReceiver_marker. simpl slice_from in *.
    change (byte_val "Q") with 0x51. cbv iota.
    unfold processUpdMsg, index.
    rewrite (lookup_ge_None_2 (Split (String x data) comma) 2) by lia.
    reflexivity. }
  split; [exact Hpanic|].
  cbn [read].
  destruct rs; cbn [readLines rl_err rl_isPrefix rl_line err_is_nil andb negb];
    rewrite Hpanic; reflexivity.
Qed.

Lemma processUpdMsg_third c (data third : string) :
  Split data comma !! 2%nat = Some third ->
  exists sym,
    Split data comma !! 0%nat = Some sym /\
    processUpdMsg c data =
    if String.eqb third "Not Found"
    then Ok (send_Errors c (ErrorMsg_UnMarshall true sym 404))
    else Ok (send_Updates c (UpdSummaryMsg_UnMarshall (Split data comma)
                               (DynFields c) (TimeLoc c))).
Proof.
  intros H3. destruct (Split_cons data comma) as (sym & fs & HS).
  exists sym. unfold processUpdMsg, process404Msg, index.
  rewrite H3. cbn [bind]. rewrite HS. cbn [lookup list_lookup bind].
  split; reflexivity.
Qed.

(** C8 (as amended): for a record of at least three bytes, the markers
    P, T, R, F, N, n and E add exactly one message, unmarshalled from the
    bytes from offset 2 on, at the end of the channel of the marker; marker
    S adds one [SystemMessage] to [System] unless the record is a
    field-definition control record, which sends nothing and only stores the
    names in [DynFields]; marker Q with at least three comma fields adds one
    [ErrorMsg] (flag true, code 404, from field 0) to [Errors] when field 2
    is [Not Found] and one [UpdSummaryMsg] to [Updates] otherwise; in every
    case the other channels, the configuration and the request counter stay
    as they were; any other first byte leaves the client as it was. *)
Theorem dispatch_by_marker c d (m : ascii) :
  3 <= len d ->
  String.get 0 d = Some m ->
  let data := slice_from 2 d in
  let items := Split data comma in
  let loc := TimeLoc c in
  (m = "P"%char ->
   exists c',
     processReceiver c (Some d) = Ok c' /\
     only_sent c c' [] [] [] [] [] []
       [UpdSummaryMsg_UnMarshall items (DynFields c) loc]) /\
  (m = "T"%char ->
   exists c',
     processReceiver c (Some d) = Ok c' /\
     only_sent c c' [] [] [] [] [] [TimeMsg_UnMarshall data loc] []) /\
  (m = "R"%char ->
   exists c',
     processReceiver c (Some d) = Ok c' /\
     only_sent c c' [] [] [] [] [RegionalMsg_UnMarshall data loc] [] []) /\
  (m = "F"%char ->
   exists c',
     processReceiver c (Some d) = Ok c' /\
     only_sent c c' [] [] [] [FundamentalMsg_UnMarshall data loc] [] [] []) /\
  (m = "N"%char ->
   exists c',
     processReceiver c (Some d) = Ok c' /\
     only_sent c c' [] [NewsMsg_UnMarshall data loc] [] [] [] [] []) /\
  (m = "n"%char ->
   exists c',
     processReceiver c (Some d) = Ok c' /\
     only_sent c c' [] [] [ErrorMsg_UnMarshall true data 404] [] [] [] []) /\
  (m = "E"%char ->
   exists c',
     processReceiver c (Some d) = Ok c' /\
     only_sent c c' [] [] [ErrorMsg_UnMarshall false data 500] [] [] [] []) /\
  (m = "S"%char ->
   forall (tok : string) (names : list string),
     items = tok :: names ->
     (fieldnames_token tok ->
      exists c',
        processReceiver c (Some d) = Ok c' /\
        sent_exactly c c' [] [] [] [] [] [] [] /\
        DynFields c' = storeFieldNames 1 names (DynFields c) /\
        config_kept c c') /\
     (~ fieldnames_token tok ->
      exists c',
        processReceiver c (Some d) = Ok c' /\
        only_sent c c' [SystemMessage_UnMarshall data loc] [] [] [] [] [] [])) /\
  (m = "Q"%char ->
   forall third : string,
     items !! 2%nat = Some third ->
     (third = "Not Found" ->
      exists sym c',
        items !! 0%nat = Some sym /\
        processReceiver c (Some d) = Ok c' /\
        only_sent c c' [] [] [ErrorMsg_UnMarshall true sym 404] [] [] [] []) /\
     (third <> "Not Found" ->
      exists c',
        processReceiver c (Some d) = Ok c' /\
        only_sent c c' [] [] [] [] [] []
          [UpdSummaryMsg_UnMarshall items (DynFields c) loc])) /\
  (~ In m markers -> processReceiver c (Some d) = Ok c).
Proof.
  intros Hlen Hm.
  destruct (record_shape d Hlen) as (a & b & x & rest & ->).
  simpl in Hm. injection Hm as ->.
  rewrite processReceiver_marker. cbn [slice_from].
  repeat match goal with |- _ /\ _ => split end.
  - intros ->. eexists. split; [reflexivity|apply only_sent_Updates].
  - intros ->. eexists. split; [reflexivity|apply only_sent_Time].
  - intros ->. eexists. split; [reflexivity|apply only_sent_Regional].
  - intros ->. eexists. split; [reflexivity|apply only_sent_Fundamental].
  - intros ->. eexists. split; [reflexivity|apply only_sent_News].
  - intros ->. eexists. split; [reflexivity|apply only_sent_Errors].
  - intros ->. eexists. split; [reflexivity|apply only_sent_Errors].
  - intros ->. change (byte_val "S") with 0x53. cbv iota.
    intros tok names HS. split.
    + intros Htok. eexists.
      split; [by apply (processSysMsg_fieldnames c _ tok names)|].
      apply sent_nothing_set_DynFields.
    + intros Hno. unfold processSysMsg, index. rewrite HS.
      cbn [lookup list_lookup bind].
      destruct (String.eqb_spec tok "UPDATE FIELDNAMES") as [->|_].
      { destruct Hno. by left. }
      destruct (String.eqb_spec tok "CURRENT UPDATE FIELDNAMES") as [->|_].
      { destruct Hno. by right. }
      eexists. split; [reflexivity|apply only_sent_System].
  - intros ->. change (byte_val "Q") with 0x51. cbv iota.
    intros third H3.
    destruct (processUpdMsg_third c _ _ H3) as (sym & H0 & ->).
    split.
    + intros ->. exists sym. eexists. split; [exact H0|].
      split; [reflexivity|apply only_sent_Errors].
    + intros Hne. destruct (String.eqb_spec third "Not Found"); [done|].
      eexists. split; [reflexivity|apply only_sent_Updates].
  - intros Hout.
    destruct m as [[] [] [] [] [] [] [] []];
      first [reflexivity | exfalso; apply Hout; cbn; tauto].
Qed.

(** ** The read loop *)

Lemma readLines_exit c (tr : list event) (r : ReadLineResult)
    (rs : list ReadLineResult) :
  err_is_nil (rl_err r) && negb (rl_isPrefix r) = false ->
  readLines c tr r rs = LinesExit c tr r rs.
Proof. intros H. destruct rs; simpl; by rewrite H. Qed.

Lemma eof_spin c (tr : list event) (n : nat) :
  read (repeat false n) c tr (repeat (mkReadLine None false (Some EOF)) n)
  = (Blocked, c, tr).
Proof.
  induction n as [|n IH]; [reflexivity|].
  cbn [repeat read]. by rewrite readLines_exit.
Qed.

(** C2 (the code fails the claim): when [ReadLine] reports a truncated
    record and no error, the record is not handed to [processReceiver], but
    after logging the reader goes on to the test [err != io.EOF], which a nil
    [err] passes: it closes the connection and returns. *)
Theorem truncated_line_ends_reader c (quits : list bool) (tr : list event)
    (line : option bytes) (rs : list ReadLineResult) :
  readLines c tr (mkReadLine line true None) rs
  = LinesExit c tr (mkReadLine line true None) rs /\
  read (false :: quits) c tr (mkReadLine line true None :: rs)
  = (Returned, c,
     (tr ++ [Log "buffer size to small"])
     ++ [Log "Pipe closed exiting..."; ConnClose]).
Proof.
  split; [by apply readLines_exit|].
  cbn [read]. by rewrite readLines_exit.
Qed.

(** C5: when the inner loop ends on a read error, the reader closes the
    connection and returns if and only if the error is not [io.EOF]; on
    [io.EOF] it neither closes nor returns but starts the next turn of the
    outer loop, which reads again, and a connection that keeps answering
    [io.EOF] keeps the reader reading. *)
Theorem eof_is_not_terminal c (quits : list bool) (tr : list event)
    (r : ReadLineResult) (rs : list ReadLineResult)
    (c1 : IQC) (tr1 : list event) (last : ReadLineResult)
    (rest : list ReadLineResult) (e : error) :
  readLines c tr r rs = LinesExit c1 tr1 last rest ->
  rl_err last = Some e ->
  let tr2 :=
    if rl_isPrefix last then tr1 ++ [Log "buffer size to small"] else tr1 in
  (e = EOF ->
   read (false :: quits) c tr (r :: rs) = read quits c1 tr2 rest) /\
  (e <> EOF ->
   read (false :: quits) c tr (r :: rs)
   = (Returned, c1, tr2 ++ [Log "Pipe closed exiting..."; ConnClose])) /\
  (forall n : nat,
     read (repeat false n) c1 tr2 (repeat (mkReadLine None false (Some EOF)) n)
     = (Blocked, c1, tr2)).
Proof.
  intros Hlines Herr tr2. cbn [read]. rewrite Hlines, Herr.
  split; [|split].
  - intros ->. reflexivity.
  - intros Hne. destruct e; [done|reflexivity].
  - intros n. apply eof_spin.
Qed.

(** ** The request id *)

Lemma wrap64_small (z : Z) : int64_min <= z <= int64_max -> wrap64 z = z.
Proof.
  unfold wrap64, int64_min, int64_max. intros H.
  rewrite Z.mod_small; lia.
Qed.

Lemma incr_previousRequestId c :
  previousRequestId (snd (incr c)) = wrap64 (previousRequestId c + 1).
Proof. reflexivity. Qed.

Lemma incr_times_S (k : nat) c :
  incr_times (S k) c = snd (incr (incr_times k c)).
Proof. reflexivity. Qed.

Lemma incr_times_below c (k : nat) :
  int64_min <= previousRequestId c ->
  previousRequestId c + Z.of_nat k <= int64_max ->
  previousRequestId (incr_times k c) = previousRequestId c + Z.of_nat k.
Proof.
  intros Hmin. induction k as [|k IH]; intros Hmax.
  - simpl. lia.
  - rewrite incr_times_S, incr_previousRequestId, IH by lia.
    rewrite wrap64_small; lia.
Qed.

(** C9 (as amended): on a client whose [previousRequestId] is below the
    largest [int64], [incr] sets [previousRequestId] to its prior value plus
    one, sets [requestId] to the decimal string of the new value and returns
    it; successive calls count upwards, strictly, for as long as the counter
    stays within [int64]. *)
Theorem incr_increments c :
  int64_min <= previousRequestId c < int64_max ->
  previousRequestId (snd (incr c)) = previousRequestId c + 1 /\
  requestId (snd (incr c)) = Sprintf_d (previousRequestId c + 1) /\
  fst (incr c) = requestId (snd (incr c)) /\
  (forall k : nat,
     previousRequestId c + Z.of_nat (S k) <= int64_max ->
     previousRequestId (incr_times (S k) c)
     = previousRequestId c + Z.of_nat (S k) /\
     previousRequestId (incr_times k c)
     < previousRequestId (incr_times (S k) c)).
Proof.
  intros [Hmin Hmax]. cbn [incr fst snd previousRequestId requestId].
  rewrite wrap64_small by lia.
  repeat split; try reflexivity.
  - rewrite incr_times_below; [reflexivity|lia|lia].
  - rewrite !incr_times_below; lia.
Qed.

End Dispatch.

(** ** Option month codes *)

Section MonthCodes.
Context `{P : Parsers} {time_Time : Type} (Time_Month : time_Time -> Month).

Lemma Month_String_invalid (m : Month) :
  ~ 1 <= m <= 12 ->
  exists rest, Month_String m = String "%" rest.
Proof.
  intros H. unfold Month_String.
  destruct (1 <=? m) eqn:H1; destruct (m <=? 12) eqn:H2; simpl; eauto.
  lia.
Qed.

Lemma month_cases (m : Month) :
  1 <= m <= 12 ->
  m = 1 \/ m = 2 \/ m = 3 \/ m = 4 \/ m = 5 \/ m = 6 \/
  m = 7 \/ m = 8 \/ m = 9 \/ m = 10 \/ m = 11 \/ m = 12.
Proof. lia. Qed.


End MonthCodes.

(** * The properties on concrete records *)

Lemma fieldnames_merged_witness :
  Split "UPDATE FIELDNAMES,Symbol" comma = ["UPDATE FIELDNAMES"; "Symbol"] /\
  fieldnames_token "UPDATE FIELDNAMES" /\
  exists c',
    processSysMsg stale "UPDATE FIELDNAMES,Symbol" = Ok c' /\
    DynFields c' !! 0 = Some "Symbol" /\
    DynFields c' !! 2 = DynFields stale !! 2.
Proof.
  assert (Split "UPDATE FIELDNAMES,Symbol" comma
          = ["UPDATE FIELDNAMES"; "Symbol"]) as HS by reflexivity.
  assert (fieldnames_token "UPDATE FIELDNAMES") as Htok by (left; reflexivity).
  split; [exact HS|]. split; [exact Htok|].
  destruct (fieldnames_merged stale _ _ _ HS Htok)
    as (c' & Hrun & _ & Hnew & Hold & _).
  exists c'. split; [exact Hrun|]. split.
  - apply (Hnew 0). simpl. lia.
  - apply (Hold 2). simpl. lia.
Defined.

(** C1 (as stated) fails: after a definition of one name on a directory of
    three, index 1 still resolves to its old name, so the directory is not
    the new definition alone. *)
Lemma fieldnames_replace_counterexample :
  exists c',
    processSysMsg stale "UPDATE FIELDNAMES,Symbol" = Ok c' /\
    DynFields c' !! 1 = Some "Last" /\
    ~ directory_is ["Symbol"] (DynFields c').
Proof.
  eexists. split; [reflexivity|]. split; [reflexivity|].
  intros H. specialize (H 1). vm_compute in H. discriminate H.
Qed.

Lemma short_record_dropped_witness :
  (Some "Q," = None \/ slice_len (Some "Q,") < 3) /\
  processReceiver started (Some "Q,") = Ok started.
Proof.
  assert (Some "Q," = None \/ slice_len (Some "Q,") < 3) as H
    by (right; vm_compute; reflexivity).
  split; [exact H|]. exact (short_record_dropped started (Some "Q,") H).
Defined.

Lemma error_markers_witness :
  3 <= len "n,MSFQQ" /\
  String.get 0 "n,MSFQQ" = Some "n"%char /\
  exists c',
    processReceiver started (Some "n,MSFQQ") = Ok c' /\
    Errors c' = [(true, "MSFQQ", 404)] /\
    Updates c' = [] /\ System c' = [].
Proof.
  assert (3 <= len "n,MSFQQ") as Hlen by (vm_compute; discriminate).
  split; [exact Hlen|]. split; [reflexivity|].
  destruct (proj1 (error_markers started "n,MSFQQ" Hlen) eq_refl)
    as (c' & Hrun & He & Hs & _ & _ & _ & _ & Hu & _).
  exists c'. split; [exact Hrun|]. split; [exact He|].
  split; [exact Hu|exact Hs].
Defined.

Lemma update_not_found_witness :
  String.get 0 "Q,MSFQQ,,Not Found" = Some "Q"%char /\
  Split (slice_from 2 "Q,MSFQQ,,Not Found") comma !! 2%nat = Some "Not Found" /\
  exists sym c',
    Split (slice_from 2 "Q,MSFQQ,,Not Found") comma !! 0%nat = Some sym /\
    processReceiver started (Some "Q,MSFQQ,,Not Found") = Ok c' /\
    c' = send_Errors started (ErrorMsg_UnMarshall true sym 404) /\
    Errors c' = Errors started ++ [ErrorMsg_UnMarshall true sym 404] /\
    Updates c' = Updates started.
Proof.
  split; [reflexivity|]. split; [reflexivity|].
  exact (update_not_found started "Q,MSFQQ,,Not Found" eq_refl eq_refl).
Defined.

Lemma short_update_panics_witness :
  3 <= len "Q,AAPL" /\
  String.get 0 "Q,AAPL" = Some "Q"%char /\
  (length (Split (slice_from 2 "Q,AAPL") comma) < 3)%nat /\
  processReceiver started (Some "Q,AAPL") = Panic (IndexOutOfRange 2 1) /\
  fst (fst (read [false] started [] [mkReadLine (Some "Q,AAPL") false None]))
  = Panicked (IndexOutOfRange 2 1).
Proof.
  assert (3 <= len "Q,AAPL") as Hlen by (vm_compute; discriminate).
  assert ((length (Split (slice_from 2 "Q,AAPL") comma) < 3)%nat) as Hshort
    by (vm_compute; lia).
  split; [exact Hlen|]. split; [reflexivity|]. split; [exact Hshort|].
  exact (short_update_panics started "Q,AAPL" [] [] [] Hlen eq_refl Hshort).
Defined.

Lemma dispatch_by_marker_witness :
  3 <= len "P,AAPL,150.00" /\
  String.get 0 "P,AAPL,150.00" = Some "P"%char /\
  exists c',
    processReceiver stale (Some "P,AAPL,150.00") = Ok c' /\
    Updates c' = [(["AAPL"; "150.00"], DynFields stale)] /\
    Errors c' = [] /\ DynFields c' = DynFields stale.
Proof.
  assert (3 <= len "P,AAPL,150.00") as Hlen by (vm_compute; discriminate).
  split; [exact Hlen|]. split; [reflexivity|].
  destruct (proj1 (dispatch_by_marker stale "P,AAPL,150.00" "P" Hlen eq_refl)
              eq_refl)
    as (c' & Hrun & (_ & _ & He & _ & _ & _ & Hu) & Hd & _).
  exists c'. split; [exact Hrun|]. split; [exact Hu|].
  split; [exact He|exact Hd].
Defined.

(** C8 (as stated) fails on marker Q: with [Not Found] in field 2 nothing
    is sent on [Updates], the message goes to [Errors] and is built from
    field 0; with fewer than three fields nothing is sent at all. *)
Lemma update_marker_counterexample :
  processReceiver started (Some "Q,MSFQQ,,Not Found")
  = Ok (send_Errors started (true, "MSFQQ", 404)) /\
  (~ exists u,
       processReceiver started (Some "Q,MSFQQ,,Not Found")
       = Ok (send_Updates started u)) /\
  (~ exists c', processReceiver started (Some "Q,AAPL") = Ok c') /\
  (exists c',
     processReceiver started (Some "Q,MSFQQ,,Not Found") = Ok c' /\
     Updates c' = [] /\ Errors c' = [(true, "MSFQQ", 404)]).
Proof.
  split; [reflexivity|]. split; [|split].
  - intros [u H]. vm_compute in H. discriminate H.
  - intros [c' H]. vm_compute in H. discriminate H.
  - eexists. split; [reflexivity|]. split; reflexivity.
Qed.

Lemma eof_is_not_terminal_witness :
  readLines started [] (mkReadLine None false (Some EOF))
    [mkReadLine (Some "T,20240102 09:30:00") false None]
  = LinesExit started [] (mkReadLine None false (Some EOF))
      [mkReadLine (Some "T,20240102 09:30:00") false None] /\
  rl_err (mkReadLine None false (Some EOF)) = Some EOF /\
  read [false; false] started [] 
    [mkReadLine None false (Some EOF);
     mkReadLine (Some "T,20240102 09:30:00") false None]
  = (Blocked, send_Time started "20240102 09:30:00", []).
Proof.
  split; [reflexivity|]. split; [reflexivity|].
  rewrite (proj1 (eof_is_not_terminal started [false] []
                    (mkReadLine None false (Some EOF))
                    [mkReadLine (Some "T,20240102 09:30:00") false None]
                    started [] (mkReadLine None false (Some EOF))
                    [mkReadLine (Some "T,20240102 09:30:00") false None]
                    EOF eq_refl eq_refl) eq_refl).
  reflexivity.
Defined.

Lemma incr_increments_witness :
  int64_min <= previousRequestId started < int64_max /\
  previousRequestId (snd (incr started)) = 1 /\
  fst (incr started) = "1".
Proof.
  assert (int64_min <= previousRequestId started < int64_max) as H
    by (unfold int64_min, int64_max; simpl; lia).
  split; [exact H|].
  destruct (incr_increments started H) as (Hprev & Hid & Hret & _).
  split; [exact Hprev|].
  rewrite Hret, Hid. reflexivity.
Defined.

(** C9 (as stated) fails at the largest [int64]: the counter wraps to the
    smallest one instead of growing by one. *)
Lemma incr_wraps_counterexample :
  previousRequestId exhausted = 9223372036854775807 /\
  previousRequestId (snd (incr exhausted)) = -9223372036854775808 /\
  fst (incr exhausted) = "-9223372036854775808" /\
  previousRequestId (snd (incr exhausted)) <> previousRequestId exhausted + 1 /\
  previousRequestId (snd (incr exhausted)) < previousRequestId exhausted.
Proof.
  split; [reflexivity|]. split; [reflexivity|]. split; [vm_compute; reflexivity|].
  split; [intros H; vm_compute in H; discriminate H|vm_compute; reflexivity].
Qed.


(** * Further properties *)

(** ** [strings.Split] and [strings.Join] *)

Lemma Split_no_sep (s : string) (sep : ascii) :
  has_byte s sep = false -> Split s sep = [s].
Proof.
  induction s as [|a r IH]; simpl; [done|].
  destruct (Ascii.eqb a sep); simpl; [done|].
  intros H. by rewrite (IH H).
Qed.

Lemma Split_app_sep (s r : string) (sep : ascii) :
  has_byte s sep = false ->
  Split (s +:+ String sep r) sep = s :: Split r sep.
Proof.
  induction s as [|a s IH]; simpl.
  - intros _. by rewrite Ascii.eqb_refl.
  - destruct (Ascii.eqb a sep); simpl; [done|].
    intros H. by rewrite (IH H).
Qed.

Lemma Split_Join (l : list string) (sep : ascii) :
  l <> [] ->
  Forall (fun s => has_byte s sep = false) l ->
  Split (Join l sep) sep = l.
Proof.
  induction l as [|x rest IH]; [done|].
  intros _ Hfree. inversion Hfree as [|? ? Hx Hrest]; subst.
  destruct rest as [|y rest].
  - simpl. by apply Split_no_sep.
  - cbn [Join]. rewrite Split_app_sep by done.
    f_equal. by apply IH.
Qed.

Section DispatchMore.
Context `{P : Parsers}.
Implicit Types (c : IQC) (d : bytes).

(** ** What one record can do *)

Lemma processSysMsg_dispatched c d :
  exists c', processSysMsg c d = Ok c' /\ dispatched c c'.
Proof.
  destruct (Split_cons d comma) as (tok & names & HS).
  unfold processSysMsg, index. rewrite HS.
  cbn [lookup list_lookup bind drop].
  destruct (String.eqb tok "UPDATE FIELDNAMES");
    [|destruct (String.eqb tok "CURRENT UPDATE FIELDNAMES")];
    eexists; (split; [reflexivity|constructor]).
Qed.

Lemma processUpdMsg_short c d :
  Split d comma !! 2%nat = None ->
  processUpdMsg c d
  = Panic (IndexOutOfRange 2 (Z.of_nat (length (Split d comma)))).
Proof. intros H. unfold processUpdMsg, index. by rewrite H. Qed.

Lemma processUpdMsg_long c d (third : string) :
  Split d comma !! 2%nat = Some third ->
  exists c', processUpdMsg c d = Ok c' /\ dispatched c c' /\
             DynFields c' = DynFields c.
Proof.
  intros H3. destruct (Split_cons d comma) as (sym & fs & HS).
  unfold processUpdMsg, process404Msg, index.
  rewrite H3. cbn [bind]. rewrite HS. cbn [lookup list_lookup bind].
  destruct (String.eqb third "Not Found");
    eexists; (split; [reflexivity|split; [constructor|reflexivity]]).
Qed.

Ltac eval_marker :=
  match goal with
  | |- context [byte_val ?a] =>
      let v := eval vm_compute in (byte_val a) in
      change (byte_val a) with v; cbv beta iota
  end.

(** The outcome of [processReceiver] on a record of at least three bytes,
    by its first byte. *)
Lemma processReceiver_switch c (a b x : ascii) (data : string) :
  let d := String a (String b (String x data)) in
  (a = "S"%char /\ processReceiver c (Some d) = processSysMsg c (String x data))
  \/ (a = "Q"%char /\
      processReceiver c (Some d) = processUpdMsg c (String x data))
  \/ (a <> "S"%char /\ a <> "Q"%char /\
      exists c', processReceiver c (Some d) = Ok c' /\ dispatched c c' /\
                 DynFields c' = DynFields c).
Proof.
  intros d. unfold d. rewrite processReceiver_marker.
  destruct a as [[] [] [] [] [] [] [] []]; eval_marker;
    first
      [ left; split; reflexivity
      | right; left; split; reflexivity
      | right; right; split; [discriminate|]; split; [discriminate|];
        eexists; split; [reflexivity|]; split; [constructor|reflexivity] ].
Qed.

Lemma processReceiver_inv c (d : option bytes) :
  match processReceiver c d with
  | Ok c' => dispatched c c'
  | Panic p =>
      exists s,
        d = Some s /\ 3 <= len s /\ String.get 0 s = Some "Q"%char /\
        Split (slice_from 2 s) comma !! 2%nat = None /\
        p = IndexOutOfRange 2
              (Z.of_nat (length (Split (slice_from 2 s) comma)))
  end.
Proof.
  destruct d as [s|]; [|constructor].
  destruct (Z.ltb_spec (len s) 3) as [Hlt|Hge].
  { unfold processReceiver. apply Z.ltb_lt in Hlt. rewrite Hlt. constructor. }
  destruct (record_shape s Hge) as (a & b & x & data & ->).
  destruct (processReceiver_switch c a b x data)
    as [[-> ->]|[[-> ->]|(_ & _ & c' & -> & Hd & _)]].
  - destruct (processSysMsg_dispatched c (String x data)) as (c' & -> & Hd).
    exact Hd.
  - destruct (Split (String x data) comma !! 2%nat) as [third|] eqn:H3.
    + destruct (processUpdMsg_long c _ _ H3) as (c' & -> & Hd & _). exact Hd.
    + rewrite processUpdMsg_short by done.
      eexists. repeat split; try done.
  - exact Hd.
Qed.

Lemma dispatched_frame c c' :
  dispatched c c' ->
  TimeZone c' = TimeZone c /\ TimeLoc c' = TimeLoc c /\
  CreateBackup c' = CreateBackup c /\ BackupFile c' = BackupFile c /\
  requestId c' = requestId c /\
  previousRequestId c' = previousRequestId c.
Proof. intros []; repeat split. Qed.

Lemma dispatched_queues c c' :
  dispatched c c' ->
  System c `prefix_of` System c' /\ News c `prefix_of` News c' /\
  Errors c `prefix_of` Errors c' /\
  Fundamental c `prefix_of` Fundamental c' /\
  Regional c `prefix_of` Regional c' /\ Time c `prefix_of` Time c' /\
  Updates c `prefix_of` Updates c' /\
  (queued c <= queued c' <= queued c + 1)%nat /\
  (DynFields c' <> DynFields c -> queued c' = queued c).
Proof.
  intros []; unfold queued; cbn;
    repeat split;
    try reflexivity; try (by apply prefix_app_r);
    try (rewrite length_app; simpl; lia); try lia; try done.
Qed.

Lemma storeFieldNames_keeps (names : list string) (m : gmap Z string) (i : Z) :
  is_Some (m !! i) -> is_Some (storeFieldNames 1 names m !! i).
Proof.
  intros H. rewrite storeFieldNames_lookup. case_decide; [|done].
  apply lookup_lt_is_Some_2. lia.
Qed.

Lemma storeFieldNames_new (names : list string) (m : gmap Z string) (i : nat) :
  (i < length names)%nat ->
  storeFieldNames 1 names m !! Z.of_nat i = names !! i.
Proof.
  intros H. rewrite storeFieldNames_lookup. case_decide; [|lia].
  f_equal. lia.
Qed.

Lemma short_record_panic c (s : string) :
  3 <= len s -> String.get 0 s = Some "Q"%char ->
  (length (Split (slice_from 2 s) comma) < 3)%nat ->
  processReceiver c (Some s)
  = Panic (IndexOutOfRange 2
             (Z.of_nat (length (Split (slice_from 2 s) comma)))).
Proof.
  intros Hlen Hm Hshort.
  destruct (record_shape s Hlen) as (a & b & x & data & ->).
  simpl in Hm. injection Hm as ->.
  rewrite processReceiver_marker. eval_marker. cbn [slice_from] in *.
  apply processUpdMsg_short. apply lookup_ge_None_2. lia.
Qed.

Lemma processReceiver_ok_iff c (l : option bytes) :
  (exists c', processReceiver c l = Ok c') <-> ~ short_update l.
Proof.
  split.
  - intros (c' & H) (s & -> & Hlen & Hm & Hshort).
    rewrite short_record_panic in H by done. discriminate H.
  - intros Hno. pose proof (processReceiver_inv c l) as Hinv.
    destruct (processReceiver c l) as [c'|p]; [by eexists|].
    destruct Hinv as (s & -> & Hlen & Hm & H3 & _).
    destruct Hno. exists s. repeat split; try done.
    apply lookup_ge_None_1 in H3. lia.
Qed.

(** X1: [processReceiver] panics on exactly one kind of input, a record of
    at least three bytes with marker Q whose payload has fewer than three
    comma fields; every other input, nil and short records included, gives a
    client back. *)
Theorem processReceiver_panics_iff c (d : option bytes) (p : panic) :
  processReceiver c d = Panic p <->
  exists s,
    d = Some s /\ 3 <= len s /\ String.get 0 s = Some "Q"%char /\
    (length (Split (slice_from 2 s) comma) < 3)%nat /\
    p = IndexOutOfRange 2 (Z.of_nat (length (Split (slice_from 2 s) comma))).
Proof.
  split.
  - intros H. pose proof (processReceiver_inv c d) as Hinv.
    rewrite H in Hinv. destruct Hinv as (s & -> & Hlen & Hm & H3 & ->).
    exists s. repeat split; try done.
    apply lookup_ge_None_1 in H3. lia.
  - intros (s & -> & Hlen & Hm & Hshort & ->).
    by apply short_record_panic.
Qed.

(** X2: whatever the record, a call of [processReceiver] that returns
    keeps the configuration and the request counter, keeps every message
    already queued in its place (each channel only grows, at its end), sends
    at most one message in all, and sends none when it changes the field
    directory. *)
Theorem processReceiver_frame c (d : option bytes) c' :
  processReceiver c d = Ok c' ->
  (TimeZone c' = TimeZone c /\ TimeLoc c' = TimeLoc c /\
   CreateBackup c' = CreateBackup c /\ BackupFile c' = BackupFile c /\
   requestId c' = requestId c /\
   previousRequestId c' = previousRequestId c) /\
  (System c `prefix_of` System c' /\ News c `prefix_of` News c' /\
   Errors c `prefix_of` Errors c' /\
   Fundamental c `prefix_of` Fundamental c' /\
   Regional c `prefix_of` Regional c' /\ Time c `prefix_of` Time c' /\
   Updates c `prefix_of` Updates c' /\
   (queued c <= queued c' <= queued c + 1)%nat /\
   (DynFields c' <> DynFields c -> queued c' = queued c)).
Proof.
  intros H. pose proof (processReceiver_inv c d) as Hinv.
  rewrite H in Hinv. split.
  - by apply dispatched_frame.
  - by apply dispatched_queues.
Qed.

(** X3: [processReceiver] never removes a name from the field directory:
    an index that resolves before a record still resolves after it; and only
    a record with marker S can change the directory at all. *)
Theorem directory_never_shrinks c (d : option bytes) c' :
  processReceiver c d = Ok c' ->
  (forall i : Z, is_Some (DynFields c !! i) -> is_Some (DynFields c' !! i)) /\
  (forall s, d = Some s -> String.get 0 s <> Some "S"%char ->
             DynFields c' = DynFields c).
Proof.
  intros H. split.
  - pose proof (processReceiver_inv c d) as Hinv. rewrite H in Hinv.
    destruct Hinv; cbn; try done.
    intros i. apply storeFieldNames_keeps.
  - intros s -> Hm.
    destruct (Z.ltb_spec (len s) 3) as [Hlt|Hge].
    { unfold processReceiver in H. apply Z.ltb_lt in Hlt. rewrite Hlt in H.
      by injection H as <-. }
    destruct (record_shape s Hge) as (a & b & x & data & ->).
    destruct (processReceiver_switch c a b x data)
      as [[-> _]|[[-> HQ]|(_ & _ & c1 & H1 & _ & Heq)]].
    + done.
    + rewrite HQ in H.
      destruct (Split (String x data) comma !! 2%nat) as [third|] eqn:H3.
      * destruct (processUpdMsg_long c _ _ H3) as (c1 & H1 & _ & Heq).
        rewrite H1 in H. by injection H as <-.
      * rewrite processUpdMsg_short in H by done. discriminate H.
    + rewrite H1 in H. by injection H as <-.
Qed.

(** X4: a field-definition record built by joining a control token and
    comma-free names with commas installs every one of the names at its
    position: what [strings.Split] takes apart is what was joined. *)
Theorem fieldnames_round_trip c (sep : ascii) (tok : string)
    (names : list string) :
  fieldnames_token tok ->
  Forall (fun s => has_byte s comma = false) names ->
  exists c',
    processReceiver c
      (Some (String "S" (String sep (Join (tok :: names) comma)))) = Ok c' /\
    (forall i : nat, (i < length names)%nat ->
       DynFields c' !! Z.of_nat i = names !! i) /\
    queued c' = queued c.
Proof.
  intros Htok Hfree.
  assert (has_byte tok comma = false) as Hfree_tok
    by (destruct Htok as [-> | ->]; reflexivity).
  assert (Split (Join (tok :: names) comma) comma = tok :: names) as HS
    by (apply Split_Join; [done|by constructor]).
  assert (exists x data, Join (tok :: names) comma = String x data)
    as (x & data & Hshape).
  { destruct Htok as [-> | ->]; destruct names; cbn; eauto. }
  rewrite Hshape in *. rewrite processReceiver_marker. eval_marker.
  rewrite (processSysMsg_fieldnames c _ tok names HS Htok).
  eexists. split; [reflexivity|]. split; [|reflexivity].
  intros i Hi. cbn. by apply storeFieldNames_new.
Qed.

(** X5: a field definition at least as long as the one before it overrides
    it completely: processing both records leaves the client that
    processing the second alone leaves; in particular a definition processed
    twice counts once. *)
Theorem fieldnames_override c (d1 d2 tok1 tok2 : string)
    (names1 names2 : list string) :
  Split d1 comma = tok1 :: names1 -> fieldnames_token tok1 ->
  Split d2 comma = tok2 :: names2 -> fieldnames_token tok2 ->
  (length names1 <= length names2)%nat ->
  (let? c1 := processSysMsg c d1 in processSysMsg c1 d2) = processSysMsg c d2.
Proof.
  intros HS1 Ht1 HS2 Ht2 Hlen.
  rewrite (processSysMsg_fieldnames c d1 tok1 names1 HS1 Ht1). cbn [bind].
  rewrite !(processSysMsg_fieldnames _ d2 tok2 names2 HS2 Ht2).
  unfold set_DynFields. cbn. do 2 f_equal.
  apply map_eq. intros i. rewrite !storeFieldNames_lookup.
  repeat case_decide; try done; lia.
Qed.

(** X6: a field definition is in force for the very next record: after a
    control record, a summary record adds to [Updates] one message
    unmarshalled with the directory that holds the new names; the two
    records send nothing else and change nothing else. *)
Theorem fieldnames_then_summary c (s1 s2 : ascii) (d1 d2 tok : string)
    (names : list string) :
  Split d1 comma = tok :: names -> fieldnames_token tok ->
  d2 <> EmptyString ->
  exists c',
    dispatch_all c
      [Some (String "S" (String s1 d1)); Some (String "P" (String s2 d2))]
    = Ok c' /\
    DynFields c' = storeFieldNames 1 names (DynFields c) /\
    (forall i : nat, (i < length names)%nat ->
       DynFields c' !! Z.of_nat i = names !! i) /\
    Updates c'
    = Updates c
      ++ [UpdSummaryMsg_UnMarshall (Split d2 comma) (DynFields c') (TimeLoc c)]
    /\
    System c' = System c /\ News c' = News c /\ Errors c' = Errors c /\
    Fundamental c' = Fundamental c /\ Regional c' = Regional c /\
    Time c' = Time c /\
    config_kept c c'.
Proof.
  intros HS Htok Hd2.
  destruct d1 as [|x1 r1].
  { cbn in HS. injection HS as <- _. destruct Htok; discriminate. }
  destruct d2 as [|x2 r2]; [done|].
  cbn [dispatch_all]. rewrite processReceiver_marker. eval_marker.
  rewrite (processSysMsg_fieldnames c _ tok names HS Htok). cbn [bind].
  rewrite processReceiver_marker. eval_marker.
  eexists. split; [reflexivity|]. cbn.
  split; [reflexivity|].
  split; [intros i Hi; by apply storeFieldNames_new|].
  unfold config_kept. cbn. repeat split.
Qed.

(** X7: a successful [connect] sets an empty time zone to
    America/New_York and keeps any other, stores the location
    [LoadLocation] gave for it, dials localhost:5009 when given no address
    and the given address otherwise, keeps the seven queues, the backup
    settings and the request counter, and empties the field directory,
    whatever it held: the first field definition after it is installed
    exactly, with no name left over from before. *)
Theorem connect_resets_directory (net : Network) c (cs : string) c'
    (addr d tok : string) (names : list string) :
  connect net c cs = Connected c' addr ->
  Split d comma = tok :: names -> fieldnames_token tok ->
  (TimeZone c = EmptyString -> TimeZone c' = "America/New_York") /\
  (TimeZone c <> EmptyString -> TimeZone c' = TimeZone c) /\
  (cs = EmptyString -> addr = "localhost:5009") /\
  (cs <> EmptyString -> addr = cs) /\
  TimeZone c' <> EmptyString /\ addr <> EmptyString /\
  LoadLocation net (TimeZone c') = Some (TimeLoc c') /\
  Dial net addr = true /\
  DynFields c' = ∅ /\
  (System c' = System c /\ News c' = News c /\ Errors c' = Errors c /\
   Fundamental c' = Fundamental c /\ Regional c' = Regional c /\
   Time c' = Time c /\ Updates c' = Updates c) /\
  (CreateBackup c' = CreateBackup c /\ BackupFile c' = BackupFile c /\
   requestId c' = requestId c /\
   previousRequestId c' = previousRequestId c) /\
  exists c'',
    processSysMsg c' d = Ok c'' /\ directory_is names (DynFields c'').
Proof.
  intros Hc HS Htok. unfold connect in Hc.
  destruct (LoadLocation net _) as [loc|] eqn:Hloc; [|discriminate].
  destruct (Dial net _) eqn:Hdial; [|discriminate].
  injection Hc as <- <-.
  cbn [TimeZone TimeLoc previousRequestId requestId CreateBackup BackupFile
       DynFields System News Errors Fundamental Regional Time Updates].
  split; [intros ->; reflexivity|].
  split; [intros Hne; by destruct (String.eqb_spec (TimeZone c) EmptyString)|].
  split; [intros ->; reflexivity|].
  split; [intros Hne; by destruct (String.eqb_spec cs EmptyString)|].
  split; [destruct (String.eqb_spec (TimeZone c) EmptyString); done|].
  split; [destruct (String.eqb_spec cs EmptyString); done|].
  split; [exact Hloc|]. split; [exact Hdial|].
  split; [reflexivity|].
  split; [repeat split|]. split; [repeat split|].
  rewrite (processSysMsg_fieldnames _ d tok names HS Htok).
  eexists. split; [reflexivity|].
  intros i. cbn. rewrite storeFieldNames_lookup.
  repeat case_decide; try lia.
  - f_equal. lia.
  - rewrite lookup_empty. symmetry. apply lookup_ge_None. lia.
  - apply lookup_empty.
Qed.

(** X15: over a whole run of records the channels only grow, at their ends:
    no message queued before or during the run is lost or reordered, at most
    one message per record is added, the configuration and the request
    counter are untouched, and no name leaves the field directory. *)
Theorem dispatch_all_frame c (lines : list (option bytes)) c' :
  dispatch_all c lines = Ok c' ->
  (TimeZone c' = TimeZone c /\ TimeLoc c' = TimeLoc c /\
   CreateBackup c' = CreateBackup c /\ BackupFile c' = BackupFile c /\
   requestId c' = requestId c /\
   previousRequestId c' = previousRequestId c) /\
  (System c `prefix_of` System c' /\ News c `prefix_of` News c' /\
   Errors c `prefix_of` Errors c' /\
   Fundamental c `prefix_of` Fundamental c' /\
   Regional c `prefix_of` Regional c' /\ Time c `prefix_of` Time c' /\
   Updates c `prefix_of` Updates c') /\
  (queued c <= queued c' <= queued c + length lines)%nat /\
  (forall i : Z, is_Some (DynFields c !! i) -> is_Some (DynFields c' !! i)).
Proof.
  revert c c'.
  induction lines as [|l lines IH]; intros c c' H; cbn [dispatch_all] in H.
  - injection H as <-. repeat split; try reflexivity; try (simpl; lia); done.
  - destruct (processReceiver c l) as [c1|] eqn:H1; [|discriminate].
    cbn [bind] in H.
    pose proof (processReceiver_inv c l) as Hd. rewrite H1 in Hd.
    destruct (dispatched_frame c c1 Hd) as (F1 & F2 & F3 & F4 & F5 & F6).
    destruct (dispatched_queues c c1 Hd)
      as (Q1 & Q2 & Q3 & Q4 & Q5 & Q6 & Q7 & Qn & _).
    destruct (IH c1 c' H)
      as ((G1 & G2 & G3 & G4 & G5 & G6)
          & (R1 & R2 & R3 & R4 & R5 & R6 & R7) & Rn & Rd).
    split; [repeat split; congruence|].
    split; [repeat split; by etrans|].
    split; [simpl; lia|].
    intros i Hi. apply Rd. destruct Hd; cbn; try done.
    by apply storeFieldNames_keeps.
Qed.

(** X16: whether a run of records panics does not depend on the client:
    the run goes through exactly when none of its records is a record with
    marker Q and fewer than three comma fields. *)
Theorem dispatch_all_ok_iff c (lines : list (option bytes)) :
  (exists c', dispatch_all c lines = Ok c') <->
  Forall (fun l => ~ short_update l) lines.
Proof.
  revert c. induction lines as [|l lines IH]; intros c; cbn [dispatch_all].
  - split; [by constructor|by eexists].
  - split.
    + intros (c' & H).
      destruct (processReceiver c l) as [c1|] eqn:H1; [|discriminate].
      cbn [bind] in H. constructor.
      * apply (processReceiver_ok_iff c). by eexists.
      * apply (IH c1). by eexists.
    + intros Hall. inversion Hall as [|? ? Hl Hrest]; subst.
      apply (processReceiver_ok_iff c) in Hl. destruct Hl as (c1 & ->).
      cbn [bind]. by apply IH.
Qed.

End DispatchMore.

(** ** More on the read loop *)

Section ReadMore.
Context `{P : Parsers}.
Implicit Types (c : IQC) (tr : list event) (rs : list ReadLineResult).

Lemma processReceiver_CreateBackup c (l : option bytes) c1 :
  processReceiver c l = Ok c1 -> CreateBackup c1 = CreateBackup c.
Proof.
  intros H. pose proof (processReceiver_inv c l) as Hinv. rewrite H in Hinv.
  by destruct (dispatched_frame c c1 Hinv) as (_ & _ & ? & _).
Qed.

Lemma backups_cons c (l : option bytes) (lines : list (option bytes)) c1 tr :
  CreateBackup c1 = CreateBackup c ->
  (if CreateBackup c
   then tr ++ [WriteBackup (string_of_slice l +:+ CRLF)]
   else tr) ++ backups c1 lines
  = tr ++ backups c (l :: lines).
Proof.
  intros H. unfold backups. rewrite H.
  destruct (CreateBackup c); [|reflexivity].
  by rewrite <- app_assoc.
Qed.

Lemma backups_nil c tr : tr ++ backups c [] = tr.
Proof. unfold backups. destruct (CreateBackup c); apply app_nil_r. Qed.

Lemma readLines_step c tr (l : option bytes) (r' : ReadLineResult) rs :
  readLines c tr (complete l) (r' :: rs)
  = let tr1 :=
      if CreateBackup c
      then tr ++ [WriteBackup (string_of_slice l +:+ CRLF)]
      else tr in
    match processReceiver c l with
    | Panic p => LinesPanic p c tr1
    | Ok c1 => readLines c1 tr1 r' rs
    end.
Proof. reflexivity. Qed.

Lemma readLines_last c tr (l : option bytes) :
  readLines c tr (complete l) []
  = let tr1 :=
      if CreateBackup c
      then tr ++ [WriteBackup (string_of_slice l +:+ CRLF)]
      else tr in
    match processReceiver c l with
    | Panic p => LinesPanic p c tr1
    | Ok c1 => LinesBlocked c1 tr1
    end.
Proof. reflexivity. Qed.

Lemma readLines_complete (lines : list (option bytes)) :
  forall c tr (l0 : option bytes) (last : ReadLineResult) rs c',
    stops last ->
    dispatch_all c (l0 :: lines) = Ok c' ->
    readLines c tr (complete l0) (map complete lines ++ last :: rs)
    = LinesExit c' (tr ++ backups c (l0 :: lines)) last rs.
Proof.
  induction lines as [|l1 lines IH]; intros c tr l0 last rs c' Hstop Hall;
    cbn [dispatch_all] in Hall;
    destruct (processReceiver c l0) as [c1|] eqn:H0; try discriminate;
    cbn [bind] in Hall;
    pose proof (processReceiver_CreateBackup c l0 c1 H0) as Hb.
  - injection Hall as <-.
    cbn [map app]. rewrite readLines_step. cbn zeta.
    rewrite H0, readLines_exit by exact Hstop.
    f_equal. rewrite <- (backups_cons c l0 [] c1 tr Hb).
    by rewrite backups_nil.
  - cbn [map app]. rewrite readLines_step. cbn zeta.
    rewrite H0. rewrite (IH c1 _ l1 last rs c' Hstop Hall).
    f_equal. by apply backups_cons.
Qed.

Lemma readLines_blocked (lines : list (option bytes)) :
  forall c tr (l0 : option bytes) c',
    dispatch_all c (l0 :: lines) = Ok c' ->
    readLines c tr (complete l0) (map complete lines)
    = LinesBlocked c' (tr ++ backups c (l0 :: lines)).
Proof.
  induction lines as [|l1 lines IH]; intros c tr l0 c' Hall;
    cbn [dispatch_all] in Hall;
    destruct (processReceiver c l0) as [c1|] eqn:H0; try discriminate;
    cbn [bind] in Hall;
    pose proof (processReceiver_CreateBackup c l0 c1 H0) as Hb.
  - injection Hall as <-.
    cbn [map]. rewrite readLines_last. cbn zeta.
    rewrite H0. f_equal. rewrite <- (backups_cons c l0 [] c1 tr Hb).
    by rewrite backups_nil.
  - cbn [map]. rewrite readLines_step. cbn zeta.
    rewrite H0. rewrite (IH c1 _ l1 c' Hall).
    f_equal. by apply backups_cons.
Qed.

Lemma read_lines_blocked (quits : list bool) c tr
    (lines : list (option bytes)) c' :
  dispatch_all c lines = Ok c' ->
  read (false :: quits) c tr (map complete lines)
  = (Blocked, c', tr ++ backups c lines).
Proof.
  intros Hall. destruct lines as [|l0 lines].
  - injection Hall as <-. cbn. by rewrite backups_nil.
  - cbn [map read]. by rewrite (readLines_blocked lines c tr l0 c' Hall).
Qed.

Lemma read_lines_then (quits : list bool) c tr
    (lines : list (option bytes)) (last : ReadLineResult) rs c' :
  stops last ->
  dispatch_all c lines = Ok c' ->
  read (false :: quits) c tr (map complete lines ++ last :: rs)
  = let tr2 :=
      if rl_isPrefix last
      then (tr ++ backups c lines) ++ [Log "buffer size to small"]
      else tr ++ backups c lines in
    if negb (err_is_EOF (rl_err last))
    then (Returned, c', tr2 ++ [Log "Pipe closed exiting..."; ConnClose])
    else read quits c' tr2 rs.
Proof.
  intros Hstop Hall. destruct lines as [|l0 lines].
  - injection Hall as <-. cbn [map app read].
    rewrite readLines_exit by exact Hstop. by rewrite backups_nil.
  - cbn [map app read].
    by rewrite (readLines_complete lines c tr l0 last rs c' Hstop Hall).
Qed.


Lemma read_quits (n : nat) :
  forall (quits : list bool) c tr rs,
    read (repeat true n ++ quits) c tr rs
    = read quits c
        (tr ++ concat (repeat [Log "Client quitting"; ConnClose] n)) rs.
Proof.
  induction n as [|n IH]; intros quits c tr rs.
  - cbn. by rewrite app_nil_r.
  - cbn [repeat app read concat]. rewrite IH. by rewrite <- app_assoc.
Qed.

(** X9: a value on [Quit] does not end the reader: it logs, closes the
    connection and goes round the loop again.  Values on [Quit] alone leave
    the reader running with no input taken; lines that still arrive are
    dispatched; and the reader returns, closing the connection once more,
    when a later [ReadLine] ends the inner loop on anything but [io.EOF]. *)
Theorem quit_does_not_stop_reader (n : nat) (quits : list bool) c tr
    (lines : list (option bytes)) c' :
  dispatch_all c lines = Ok c' ->
  let closed :=
    tr ++ concat (repeat [Log "Client quitting"; ConnClose] n) in
  (forall rs, read (repeat true n ++ quits) c tr rs = read quits c closed rs) /\
  (forall rs, read (repeat true n) c tr rs = (Blocked, c, closed)) /\
  read (repeat true n ++ false :: quits) c tr (map complete lines)
  = (Blocked, c', closed ++ backups c lines) /\
  (forall (last : ReadLineResult) rs,
     stops last -> err_is_EOF (rl_err last) = false ->
     read (repeat true n ++ false :: quits) c tr
       (map complete lines ++ last :: rs)
     = (Returned, c',
        (if rl_isPrefix last
         then (closed ++ backups c lines) ++ [Log "buffer size to small"]
         else closed ++ backups c lines)
        ++ [Log "Pipe closed exiting..."; ConnClose])).
Proof.
  intros Hall closed. split; [|split; [|split]].
  - intros rs. apply read_quits.
  - intros rs. rewrite <- (app_nil_r (repeat true n)). by rewrite read_quits.
  - rewrite read_quits. by apply read_lines_blocked.
  - intros last rs Hstop Heof. rewrite read_quits.
    rewrite (read_lines_then quits c _ lines last rs c' Hstop Hall).
    cbn zeta. by rewrite Heof.
Qed.

Lemma readLines_inv rs :
  forall c tr (r : ReadLineResult),
    match readLines c tr r rs with
    | LinesExit c1 tr1 last rest =>
        tr `prefix_of` tr1 /\ In last (r :: rs) /\ stops last /\
        (forall x, In x rest -> In x rs)
    | LinesBlocked c1 tr1 => tr `prefix_of` tr1
    | LinesPanic p c1 tr1 => tr `prefix_of` tr1
    end.
Proof.
  induction rs as [|r' rs IH]; intros c tr r.
  - cbn [readLines].
    destruct (err_is_nil (rl_err r) && negb (rl_isPrefix r)) eqn:Hr.
    + destruct (processReceiver c (rl_line r));
        destruct (CreateBackup c); try reflexivity; by apply prefix_app_r.
    + split; [reflexivity|]. split; [by left|]. split; [exact Hr|]. done.
  - cbn [readLines].
    destruct (err_is_nil (rl_err r) && negb (rl_isPrefix r)) eqn:Hr.
    + destruct (processReceiver c (rl_line r)) as [c1|p].
      * match goal with |- context [readLines c1 ?t r' rs] =>
          specialize (IH c1 t r'); destruct (readLines c1 t r' rs);
          assert (tr `prefix_of` t) as Hpre
            by (destruct (CreateBackup c); [by apply prefix_app_r|reflexivity])
        end.
        -- destruct IH as (Ht & Hin & Hs & Hrest).
           split; [by etrans|]. split; [by right|]. split; [exact Hs|].
           intros x Hx. right. by apply Hrest.
        -- by etrans.
        -- by etrans.
      * destruct (CreateBackup c); [by apply prefix_app_r|reflexivity].
    + split; [reflexivity|]. split; [by left|]. split; [exact Hr|]. done.
Qed.

(** X10: the reader only ever adds to its trace; when it returns, the last
    thing it did was to close the connection, and some [ReadLine] result it
    was given was not [io.EOF] and was either an error or a truncated line:
    complete lines and [io.EOF] alone never make it return. *)
Theorem read_returns_closed (quits : list bool) :
  forall c tr rs (st : status) c' (tr' : list event),
    read quits c tr rs = (st, c', tr') ->
    tr `prefix_of` tr' /\
    (st = Returned ->
     (exists pre, tr' = pre ++ [Log "Pipe closed exiting..."; ConnClose]) /\
     exists r, In r rs /\ stops r /\ err_is_EOF (rl_err r) = false).
Proof.
  induction quits as [|q quits IH]; intros c tr rs st c' tr' H.
  - injection H as <- <- <-. split; [reflexivity|discriminate].
  - destruct q; cbn [read] in H.
    + destruct (IH _ _ _ _ _ _ H) as (Hpre & Hret). split; [|exact Hret].
      etrans; [|exact Hpre]. by apply prefix_app_r.
    + destruct rs as [|r rs].
      { injection H as <- <- <-. split; [reflexivity|discriminate]. }
      pose proof (readLines_inv rs c tr r) as Hinv.
      destruct (readLines c tr r rs) as [c1 tr1 last rest|c1 tr1|p c1 tr1].
      * destruct Hinv as (Ht & Hin & Hs & Hrest).
        destruct (err_is_EOF (rl_err last)) eqn:Heof; cbn [negb] in H.
        -- destruct (IH _ _ _ _ _ _ H) as (Hpre & Hret). split.
           ++ etrans; [exact Ht|]. etrans; [|exact Hpre].
              destruct (rl_isPrefix last); [by apply prefix_app_r|reflexivity].
           ++ intros Hst. destruct (Hret Hst) as (Hclose & r0 & Hr0 & Hstop).
              split; [exact Hclose|]. exists r0. split; [|exact Hstop].
              right. by apply Hrest.
        -- injection H as <- <- <-. split.
           ++ etrans; [exact Ht|]. apply prefix_app_r.
              destruct (rl_isPrefix last); [by apply prefix_app_r|reflexivity].
           ++ intros _. split; [by eexists|]. by exists last.
      * injection H as <- <- <-. split; [exact Hinv|discriminate].
      * injection H as <- <- <-. split; [exact Hinv|discriminate].
Qed.

End ReadMore.

(** ** More on the request id *)


Lemma wrap64_succ (z : Z) : wrap64 (wrap64 z + 1) = wrap64 (z + 1).
Proof.
  unfold wrap64.
  replace ((z + 2 ^ 63) mod 2 ^ 64 - 2 ^ 63 + 1 + 2 ^ 63)
    with ((z + 2 ^ 63) mod 2 ^ 64 + 1) by lia.
  rewrite Zplus_mod_idemp_l. do 2 f_equal. lia.
Qed.

Lemma wrap64_eq (a b : Z) :
  wrap64 a = wrap64 b -> exists q : Z, a - b = q * 2 ^ 64.
Proof.
  unfold wrap64. intros H.
  pose proof (Z.div_mod (a + 2 ^ 63) (2 ^ 64)) as Ha.
  pose proof (Z.div_mod (b + 2 ^ 63) (2 ^ 64)) as Hb.
  exists ((a + 2 ^ 63) / 2 ^ 64 - (b + 2 ^ 63) / 2 ^ 64). lia.
Qed.

Section RequestIds.
Context `{P : Parsers}.
Implicit Types (c : IQC).

Lemma incr_times_wrap c (k : nat) :
  previousRequestId (incr_times (S k) c)
  = wrap64 (previousRequestId c + Z.of_nat (S k)).
Proof.
  induction k as [|k IH].
  - reflexivity.
  - rewrite incr_times_S, incr_previousRequestId, IH, wrap64_succ.
    f_equal. lia.
Qed.



(** X12: no request id comes back before the counter has gone round: two
    calls of [incr] fewer than 2^64 calls apart return different strings. *)
Theorem request_ids_distinct c (j k : nat) :
  (j < k)%nat ->
  Z.of_nat k - Z.of_nat j < 2 ^ 64 ->
  fst (incr (incr_times j c)) <> fst (incr (incr_times k c)).
Proof.
  intros Hjk Hwin Heq.
  change (fst (incr (incr_times j c)))
    with (Sprintf_d (previousRequestId (incr_times (S j) c))) in Heq.
  change (fst (incr (incr_times k c)))
    with (Sprintf_d (previousRequestId (incr_times (S k) c))) in Heq.
  unfold Sprintf_d in Heq. apply (inj pretty) in Heq.
  rewrite !incr_times_wrap in Heq.
  destruct (wrap64_eq _ _ Heq) as (q & Hq). lia.
Qed.

End RequestIds.

(** ** More on the month codes *)

Lemma letter_inj (a b : Z) :
  0 <= a < 256 -> 0 <= b < 256 -> letter a = letter b -> a = b.
Proof.
  intros Ha Hb H. unfold letter in H. injection H as H.
  apply (f_equal N_of_ascii) in H.
  rewrite !N_ascii_embedding in H by lia. lia.
Qed.

Lemma switch_call (m : Month) :
  exists k : Z,
    0 <= k < 12 /\
    default "A" (switch_string (Month_String m) callCases) = letter (65 + k) /\
    default "M" (switch_string (Month_String m) putCases) = letter (77 + k) /\
    (1 <= m <= 12 -> k = m - 1).
Proof.
  destruct (decide (1 <= m <= 12)) as [Hin|Hout].
  - exists (m - 1). split; [lia|].
    destruct (month_cases m Hin) as
      [->|[->|[->|[->|[->|[->|[->|[->|[->|[->|[->| ->]]]]]]]]]]];
      repeat split; reflexivity.
  - destruct (Month_String_invalid m Hout) as (rest & ->).
    exists 0. split; [lia|]. repeat split; try reflexivity. done.
Qed.

Section MonthCodesMore.
Context `{P : Parsers} {time_Time : Type} (Time_Month : time_Time -> Month).

(** X13: the month codes can be read back: no call code is ever a put
    code, and for months 1 to 12 two times get the same call code, or the
    same put code, only when they are in the same month. *)
Theorem month_codes_distinct (c : IQC) (t1 t2 : time_Time) :
  getCallChar Time_Month c t1 <> getPutChar Time_Month c t2 /\
  (1 <= Time_Month t1 <= 12 -> 1 <= Time_Month t2 <= 12 ->
   (getCallChar Time_Month c t1 = getCallChar Time_Month c t2 ->
    Time_Month t1 = Time_Month t2) /\
   (getPutChar Time_Month c t1 = getPutChar Time_Month c t2 ->
    Time_Month t1 = Time_Month t2)).
Proof.
  unfold getCallChar, getPutChar.
  destruct (switch_call (Time_Month t1)) as (k1 & Hk1 & -> & -> & Hm1).
  destruct (switch_call (Time_Month t2)) as (k2 & Hk2 & -> & -> & Hm2).
  split.
  - intros H. apply letter_inj in H; lia.
  - intros H1 H2. specialize (Hm1 H1). specialize (Hm2 H2).
    split; intros H; apply letter_inj in H; lia.
Qed.

End MonthCodesMore.

(** * The further properties on concrete records *)

Lemma processReceiver_frame_witness :
  processReceiver stale (Some "T,20240102 09:30:00")
  = Ok (send_Time stale "20240102 09:30:00") /\
  previousRequestId (send_Time stale "20240102 09:30:00")
  = previousRequestId stale /\
  Time stale `prefix_of` Time (send_Time stale "20240102 09:30:00") /\
  (queued stale <= queued (send_Time stale "20240102 09:30:00")
   <= queued stale + 1)%nat.
Proof.
  assert (processReceiver stale (Some "T,20240102 09:30:00")
          = Ok (send_Time stale "20240102 09:30:00")) as H by reflexivity.
  split; [exact H|].
  destruct (processReceiver_frame stale _ _ H)
    as ((_ & _ & _ & _ & _ & Hprev) & (_ & _ & _ & _ & _ & Ht & _ & Hq & _)).
  split; [exact Hprev|]. split; [exact Ht|exact Hq].
Defined.

Lemma directory_never_shrinks_witness :
  processReceiver stale (Some "S,UPDATE FIELDNAMES,Symbol")
  = Ok (set_DynFields stale (storeFieldNames 1 ["Symbol"] (DynFields stale))) /\
  is_Some (DynFields stale !! 2) /\
  is_Some (storeFieldNames 1 ["Symbol"] (DynFields stale) !! 2).
Proof.
  assert (processReceiver stale (Some "S,UPDATE FIELDNAMES,Symbol")
          = Ok (set_DynFields stale
                  (storeFieldNames 1 ["Symbol"] (DynFields stale)))) as H
    by reflexivity.
  assert (is_Some (DynFields stale !! 2)) as H2 by (by exists "Bid").
  split; [exact H|]. split; [exact H2|].
  exact (proj1 (directory_never_shrinks stale _ _ H) 2 H2).
Defined.

Lemma fieldnames_round_trip_witness :
  fieldnames_token "CURRENT UPDATE FIELDNAMES" /\
  Forall (fun s => has_byte s comma = false) ["Symbol"; "Last"] /\
  exists c',
    processReceiver started (Some "S,CURRENT UPDATE FIELDNAMES,Symbol,Last")
    = Ok c' /\
    DynFields c' !! 1 = Some "Last".
Proof.
  assert (fieldnames_token "CURRENT UPDATE FIELDNAMES") as Htok
    by (right; reflexivity).
  assert (Forall (fun s => has_byte s comma = false) ["Symbol"; "Last"])
    as Hfree by (repeat constructor).
  split; [exact Htok|]. split; [exact Hfree|].
  destruct (fieldnames_round_trip started comma _ _ Htok Hfree)
    as (c' & Hrun & Hnames & _).
  exists c'. split; [exact Hrun|].
  apply (Hnames 1%nat). simpl. lia.
Defined.

Lemma fieldnames_override_witness :
  Split "UPDATE FIELDNAMES,Open" comma = ["UPDATE FIELDNAMES"; "Open"] /\
  fieldnames_token "UPDATE FIELDNAMES" /\
  Split "CURRENT UPDATE FIELDNAMES,Symbol,Last" comma
  = ["CURRENT UPDATE FIELDNAMES"; "Symbol"; "Last"] /\
  fieldnames_token "CURRENT UPDATE FIELDNAMES" /\
  (length ["Open"] <= length ["Symbol"; "Last"])%nat /\
  (let? c1 := processSysMsg stale "UPDATE FIELDNAMES,Open" in
   processSysMsg c1 "CURRENT UPDATE FIELDNAMES,Symbol,Last")
  = processSysMsg stale "CURRENT UPDATE FIELDNAMES,Symbol,Last".
Proof.
  assert (fieldnames_token "UPDATE FIELDNAMES") as H1 by (left; reflexivity).
  assert (fieldnames_token "CURRENT UPDATE FIELDNAMES") as H2
    by (right; reflexivity).
  assert ((length ["Open"] <= length ["Symbol"; "Last"])%nat) as Hlen
    by (simpl; lia).
  split; [reflexivity|]. split; [exact H1|]. split; [reflexivity|].
  split; [exact H2|]. split; [exact Hlen|].
  exact (fieldnames_override stale "UPDATE FIELDNAMES,Open"
           "CURRENT UPDATE FIELDNAMES,Symbol,Last" "UPDATE FIELDNAMES"
           "CURRENT UPDATE FIELDNAMES" ["Open"] ["Symbol"; "Last"]
           eq_refl H1 eq_refl H2 Hlen).
Defined.

Lemma fieldnames_then_summary_witness :
  Split "UPDATE FIELDNAMES,Symbol,Last" comma
  = ["UPDATE FIELDNAMES"; "Symbol"; "Last"] /\
  fieldnames_token "UPDATE FIELDNAMES" /\
  "AAPL,150.00" <> EmptyString /\
  exists c',
    dispatch_all started
      [Some "S,UPDATE FIELDNAMES,Symbol,Last"; Some "P,AAPL,150.00"]
    = Ok c' /\
    DynFields c' !! 0 = Some "Symbol" /\ DynFields c' !! 1 = Some "Last" /\
    Updates c' = [(["AAPL"; "150.00"], DynFields c')] /\
    System c' = [].
Proof.
  assert (fieldnames_token "UPDATE FIELDNAMES") as Htok by (left; reflexivity).
  assert ("AAPL,150.00" <> EmptyString) as Hne by discriminate.
  split; [reflexivity|]. split; [exact Htok|]. split; [exact Hne|].
  destruct (fieldnames_then_summary started comma comma
              "UPDATE FIELDNAMES,Symbol,Last" "AAPL,150.00"
              "UPDATE FIELDNAMES" ["Symbol"; "Last"]
              eq_refl Htok Hne)
    as (c' & Hrun & _ & Hnames & Hupd & Hsys & _).
  exists c'. split; [exact Hrun|]. split; [|split; [|split]].
  - apply (Hnames 0%nat). simpl. lia.
  - apply (Hnames 1%nat). simpl. lia.
  - exact Hupd.
  - exact Hsys.
Defined.

Lemma connect_resets_directory_witness :
  connect friendly (set_DynFields
                      (@mkIQC recordingParsers [] [] [] [] [] [] []
                         EmptyString EmptyString true "backup.log"
                         ∅ EmptyString 7)
                      (DynFields stale)) EmptyString
  = Connected (@mkIQC recordingParsers [] [] [] [] [] [] []
                 "America/New_York" "America/New_York" true "backup.log"
                 ∅ EmptyString 7) "localhost:5009" /\
  Split "UPDATE FIELDNAMES,Symbol" comma = ["UPDATE FIELDNAMES"; "Symbol"] /\
  fieldnames_token "UPDATE FIELDNAMES" /\
  exists c'',
    processSysMsg (@mkIQC recordingParsers [] [] [] [] [] [] []
                     "America/New_York" "America/New_York" true "backup.log"
                     ∅ EmptyString 7) "UPDATE FIELDNAMES,Symbol" = Ok c'' /\
    directory_is ["Symbol"] (DynFields c'').
Proof.
  assert (fieldnames_token "UPDATE FIELDNAMES") as Htok by (left; reflexivity).
  assert (connect friendly
            (set_DynFields
               (@mkIQC recordingParsers [] [] [] [] [] [] []
                  EmptyString EmptyString true "backup.log" ∅ EmptyString 7)
               (DynFields stale)) EmptyString
          = Connected (@mkIQC recordingParsers [] [] [] [] [] [] []
                         "America/New_York" "America/New_York" true
                         "backup.log" ∅ EmptyString 7) "localhost:5009")
    as Hc by reflexivity.
  split; [exact Hc|]. split; [reflexivity|]. split; [exact Htok|].
  destruct (connect_resets_directory friendly _ EmptyString _ _
              "UPDATE FIELDNAMES,Symbol" "UPDATE FIELDNAMES" ["Symbol"]
              Hc eq_refl Htok)
    as (_ & _ & _ & _ & _ & _ & _ & _ & _ & _ & _ & Hdir).
  exact Hdir.
Defined.


Lemma quit_does_not_stop_reader_witness :
  dispatch_all started [Some "T,0930"] = Ok (send_Time started "0930") /\
  stops (failed (OtherError "closed")) /\
  err_is_EOF (rl_err (failed (OtherError "closed"))) = false /\
  read [true; false] started []
    [complete (Some "T,0930"); failed (OtherError "closed")]
  = (Returned, send_Time started "0930",
     [Log "Client quitting"; ConnClose;
      Log "Pipe closed exiting..."; ConnClose]).
Proof.
  assert (dispatch_all started [Some "T,0930"] = Ok (send_Time started "0930"))
    as H by reflexivity.
  assert (stops (failed (OtherError "closed"))) as Hs by reflexivity.
  assert (err_is_EOF (rl_err (failed (OtherError "closed"))) = false) as He
    by reflexivity.
  split; [exact H|]. split; [exact Hs|]. split; [exact He|].
  exact (proj2 (proj2 (proj2
           (quit_does_not_stop_reader 1 [] started [] _ _ H))) _ [] Hs He).
Defined.

Lemma read_returns_closed_witness :
  read [false] started [] [failed (OtherError "reset")]
  = (Returned, started, [Log "Pipe closed exiting..."; ConnClose]) /\
  exists r,
    In r [failed (OtherError "reset")] /\ stops r /\
    err_is_EOF (rl_err r) = false.
Proof.
  assert (read [false] started [] [failed (OtherError "reset")]
          = (Returned, started, [Log "Pipe closed exiting..."; ConnClose]))
    as H by reflexivity.
  split; [exact H|].
  exact (proj2 (proj2 (read_returns_closed _ _ _ _ _ _ _ H) eq_refl)).
Defined.

Lemma request_ids_distinct_witness :
  (0 < 1)%nat /\ Z.of_nat 1 - Z.of_nat 0 < 2 ^ 64 /\
  fst (incr (incr_times 0 exhausted)) <> fst (incr (incr_times 1 exhausted)).
Proof.
  assert ((0 < 1)%nat) as H1 by lia.
  assert (Z.of_nat 1 - Z.of_nat 0 < 2 ^ 64) as H2 by (simpl; lia).
  split; [exact H1|]. split; [exact H2|].
  exact (request_ids_distinct exhausted 0 1 H1 H2).
Defined.

Lemma month_codes_distinct_witness :
  1 <= 3 <= 12 /\ 1 <= 4 <= 12 /\
  getCallChar (fun m : Z => m) started 3 <> getPutChar (fun m : Z => m) started 4 /\
  (getCallChar (fun m : Z => m) started 3 = getCallChar (fun m : Z => m) started 4
   -> 3 = 4).
Proof.
  assert (1 <= 3 <= 12) as H3 by lia.
  assert (1 <= 4 <= 12) as H4 by lia.
  split; [exact H3|]. split; [exact H4|].
  destruct (month_codes_distinct (fun m : Z => m) started 3 4) as (Hd & Hi).
  split; [exact Hd|]. exact (proj1 (Hi H3 H4)).
Defined.

Lemma dispatch_all_frame_witness :
  dispatch_all stale [Some "T,0930"; Some "X,?"; Some "n,MSFQQ"]
  = Ok (send_Errors (send_Time stale "0930") (true, "MSFQQ", 404)) /\
  (queued stale
   <= queued (send_Errors (send_Time stale "0930") (true, "MSFQQ", 404%Z))
   <= queued stale + 3)%nat.
Proof.
  assert (dispatch_all stale [Some "T,0930"; Some "X,?"; Some "n,MSFQQ"]
          = Ok (send_Errors (send_Time stale "0930") (true, "MSFQQ", 404)))
    as H by reflexivity.
  split; [exact H|].
  exact (proj1 (proj2 (proj2 (dispatch_all_frame stale _ _ H)))).
Defined.
